(** * rollup-plugin-typescript: a shallow embedding of the plugin

    The repository is one integration layer between the Rollup bundler and the
    TypeScript compiler.  Its source exists in several generations that share
    most of their text:

    - [src/index.ts] (first document): sink-optional reporter, recognised
      extensions ['.ts', '.tsx'], extension-preserving resolution with a
      directory-index fallback, [options] hook guarded against a falsy input;
    - [src/unnamed/part_000]: the newest generation, four recognised
      extensions, extension-remapping resolution, reporter with a mandatory
      sink, same [options] hook;
    - [src/unnamed/part_001] and the second document of [src/index.ts]: older
      generations (modules [Part001] and [IndexOld]): no directory index, no
      guard in the [options] hook; the oldest has a configuration resolver of
      its own.  The [transform] of [part_001] has the text of [src/index.ts].

    The compiler ([ts.*]), Node's [path] and [fs] modules, [glob] and the
    repository's own [./utils] helper are not part of the sources; they enter
    as the fields of interface classes, except [path.extname], which is
    modelled after Node's POSIX implementation because the remapping resolver
    depends on how it interacts with a regular expression.

    Layout: the data model and the hooks first (module [Shared] for the text
    the generations have in common, then [Index] and [Part000]), then the
    vocabulary of the statements, then the properties. *)

From Stdlib Require Import ZArith Ascii String List Bool Lia.
From stdpp Require Import base option list strings gmap.

Open Scope string_scope.
Open Scope list_scope.
Open Scope Z_scope.

(** ** JavaScript preliminaries *)

(** Truthiness of a JS string: only the empty string is falsy. *)
Definition truthy_string (s : string) : bool :=
  negb (String.eqb s "").

(** Truthiness of a JS number ([NaN] is not modelled). *)
Definition truthy_number (n : Z) : bool :=
  negb (n =? 0).

(** [a || b] on values that are either a string or [undefined]. *)
Definition js_or (a b : option string) : option string :=
  match a with
  | Some s => if truthy_string s then Some s else b
  | None => b
  end.

(** Outcome of a computation that may [throw]: the error type comes first. *)
Inductive res (E A : Type) : Type :=
| Ok (a : A)
| Throw (e : E).
Arguments Ok {E A} a.
Arguments Throw {E A} e.

(** ** Node's [path.extname] (POSIX flavour)

    The loop walks the path from its last character to its first, exactly as
    [lib/path.js] does, with [-1] as the "unset" sentinel. *)
Module Path.

Record ExtScan : Type := mkExtScan {
  startDot : Z;
  startPart : Z;
  endPos : Z;
  matchedSlash : bool;
  preDotState : Z
}.

Definition scan0 : ExtScan :=
  {| startDot := -1; startPart := 0; endPos := -1;
     matchedSlash := true; preDotState := 0 |}.

Definition CHAR_FORWARD_SLASH : ascii := "/"%char.
Definition CHAR_DOT : ascii := "."%char.

(** [rpath] is the not yet visited prefix of the path, reversed; the index
    [i] of its head is the length of its tail. *)
Fixpoint extname_loop (rpath : list ascii) (st : ExtScan) : ExtScan :=
  match rpath with
  | [] => st
  | code :: rest =>
      let i := Z.of_nat (length rest) in
      if Ascii.eqb code CHAR_FORWARD_SLASH then
        if negb (matchedSlash st) then
          (* break *)
          {| startDot := startDot st; startPart := i + 1; endPos := endPos st;
             matchedSlash := matchedSlash st; preDotState := preDotState st |}
        else extname_loop rest st
      else
        let st1 :=
          if endPos st =? -1 then
            {| startDot := startDot st; startPart := startPart st;
               endPos := i + 1; matchedSlash := false;
               preDotState := preDotState st |}
          else st in
        let st2 :=
          if Ascii.eqb code CHAR_DOT then
            if startDot st1 =? -1 then
              {| startDot := i; startPart := startPart st1;
                 endPos := endPos st1; matchedSlash := matchedSlash st1;
                 preDotState := preDotState st1 |}
            else if negb (preDotState st1 =? 1) then
              {| startDot := startDot st1; startPart := startPart st1;
                 endPos := endPos st1; matchedSlash := matchedSlash st1;
                 preDotState := 1 |}
            else st1
          else if negb (startDot st1 =? -1) then
            {| startDot := startDot st1; startPart := startPart st1;
               endPos := endPos st1; matchedSlash := matchedSlash st1;
               preDotState := -1 |}
          else st1 in
        extname_loop rest st2
  end.

(** [String.prototype.slice] for in-range, non-negative bounds. *)
Definition slice (l : list ascii) (from to : Z) : list ascii :=
  take (Z.to_nat (to - from)) (drop (Z.to_nat from) l).

Definition extname_chars (path : list ascii) : list ascii :=
  let st := extname_loop (rev path) scan0 in
  if (startDot st =? -1)
     || (endPos st =? -1)
     || (preDotState st =? 0)
     || ((preDotState st =? 1)
         && (startDot st =? endPos st - 1)
         && (startDot st =? startPart st + 1))
  then []
  else slice path (startDot st) (endPos st).

Definition extname (path : string) : string :=
  string_of_list_ascii (extname_chars (list_ascii_of_string path)).

End Path.

(** ** Data model *)

Inductive ModuleKind : Type :=
| MK_None | MK_CommonJS | MK_AMD | MK_UMD | MK_System
| MK_ES2015 | MK_ES2020 | MK_ES2022 | MK_ESNext | MK_Node16 | MK_NodeNext.

Inductive ModuleResolutionKind : Type :=
| MR_Classic | MR_NodeJs | MR_Node16 | MR_NodeNext | MR_Bundler.

(** A compiler flag value. *)
Inductive OptionValue : Type :=
| VBool (b : bool)
| VNumber (n : Z)
| VString (s : string)
| VModule (k : ModuleKind)
| VModuleResolution (k : ModuleResolutionKind).

(** [ts.CompilerOptions]: a JS object used as a map from flag names to
    values. *)
Abbreviation CompilerOptions := (gmap string OptionValue).

(** [Object.assign(target, source)]: the properties of [source] overwrite
    those of [target]. *)
Definition Object_assign (target source : CompilerOptions) : CompilerOptions :=
  source ∪ target.

Inductive DiagnosticCategory : Type :=
| Warning | Error | Suggestion | Message.

Definition category_eqb (a b : DiagnosticCategory) : bool :=
  match a, b with
  | Warning, Warning | Error, Error
  | Suggestion, Suggestion | Message, Message => true
  | _, _ => false
  end.

(** [string | ts.DiagnosticMessageChain]. *)
#[warnings="-register-all"]
Inductive MessageText : Type :=
| MsgText (s : string)
| MsgChain (s : string) (next : list MessageText).

Record SourceFile : Type := mkSourceFile {
  fileName : string;
  text : string
}.

Record Diagnostic : Type := mkDiagnostic {
  messageText : MessageText;
  category : DiagnosticCategory;
  file : option SourceFile;
  start : option Z
}.

Record LineAndCharacter : Type := mkLineAndCharacter {
  line : Z;
  character : Z
}.

(** The [loc] object handed to the bundler. *)
Record Location : Type := mkLocation {
  loc_file : string;
  loc_line : Z;
  loc_column : Z
}.

Record ParsedCommandLine : Type := mkParsed {
  parsed_options : CompilerOptions;
  parsed_errors : list Diagnostic
}.

Record TranspileOutput : Type := mkTranspileOutput {
  outputText : string;
  sourceMapText : option string
}.

Record ErrnoException : Type := mkErrno {
  errno_code : option string;
  errno_message : string
}.

(** The bundler's [input] declaration: absent, one path, a sequence of paths
    or a mapping from output names to paths (entries in property order). *)
Inductive InputOption : Type :=
| InputUndefined
| InputString (s : string)
| InputArray (l : list string)
| InputObject (entries : list (string * string)).

(** The live plugin context ([this] inside a hook). *)
Inductive PluginContext : Type := this.

(** ** External interfaces *)

(** The TypeScript compiler API, as far as the plugin uses it. *)
Class Compiler : Type := {
  Json : Type;
  Program : Type;
  sys_newLine : string;
  flattenDiagnosticMessageText : MessageText -> string -> string;
  getLineAndCharacterOfPosition : SourceFile -> Z -> LineAndCharacter;
  convertCompilerOptionsFromJson : Json -> string -> ParsedCommandLine;
  parseConfigFileTextToJson : string -> string -> Json * option Diagnostic;
  parseJsonConfigFileContent : Json -> string -> ParsedCommandLine;
  createProgram : list string -> option CompilerOptions -> Program;
  getSourceFile : Program -> string -> option SourceFile;
  getPreEmitDiagnostics : Program -> SourceFile -> list Diagnostic;
  transpileModule : string -> option CompilerOptions -> TranspileOutput
}.

(** Node's [path] module apart from [extname].  [path.resolve] always returns
    an absolute path, which is never the empty string. *)
Class NodePath : Type := {
  path_dirname : string -> string;
  path_resolve : string -> string -> string;
  path_join : string -> string -> string;
  path_resolve_truthy : forall dir p, truthy_string (path_resolve dir p) = true
}.

(** [JSON.parse] ([None] stands for a thrown [SyntaxError]) and the
    repository's [getCodeFrame] helper of [./utils], whose source is not
    available. *)
Class Runtime : Type := {
  SourceMap : Type;
  JSON_parse : string -> option SourceMap;
  getCodeFrame : string -> Z -> Z -> string
}.

(** What the file system answers during one hook call. *)
Record World : Type := mkWorld {
  fs_readFile : string -> res ErrnoException string;
  fs_access : string -> bool;
  glob : string -> string -> list string
}.

Record PluginOptions `{Compiler} : Type := mkPluginOptions {
  po_compilerOptions : option Json
}.

(** Everything a hook can throw. *)
Inductive Exn : Type :=
| Failure (message : string) (id : option string)
          (loc : option Location) (frame : option string)
| SinkError (message : string) (loc : option Location)
| SyntaxError (input : string).

(** Observable calls, in order. *)
Inductive Event : Type :=
| EvWarn (message : string) (loc : option Location)
| EvError (message : string) (loc : option Location)
| EvCreateProgram (files : list string) (opts : option CompilerOptions).

(** The three build-scoped bindings of the [typescript] closure. *)
Record State `{Compiler} : Type := mkState {
  st_input : list string;
  st_compilerOptions : option CompilerOptions;
  st_program : option Program
}.

Record TransformResult `{Runtime} : Type := mkTransformResult {
  code : string;
  map : option SourceMap
}.

(** ** Hook monad: closure state, event log, exceptions *)

Definition M `{Compiler} (A : Type) : Type :=
  State -> State * list Event * res Exn A.

Definition ret `{Compiler} {A} (a : A) : M A :=
  fun st => (st, [], Ok a).

Definition bind `{Compiler} {A B} (m : M A) (k : A -> M B) : M B :=
  fun st =>
    match m st with
    | (st1, evs1, Ok a) =>
        match k a st1 with
        | (st2, evs2, r) => (st2, evs1 ++ evs2, r)
        end
    | (st1, evs1, Throw e) => (st1, evs1, Throw e)
    end.

Notation "x <- m ;; k" := (bind m (fun x => k))
  (at level 100, m at next level, right associativity).
Notation "m ;;; k" := (bind m (fun _ => k))
  (at level 100, right associativity).

Definition gets `{Compiler} {A} (f : State -> A) : M A :=
  fun st => (st, [], Ok (f st)).

Definition emit `{Compiler} (ev : Event) : M unit :=
  fun st => (st, [ev], Ok tt).

Definition throw `{Compiler} {A} (e : Exn) : M A :=
  fun st => (st, [], Throw e).

Definition set_compilerOptions `{Compiler} (c : CompilerOptions) : M unit :=
  fun st =>
    ({| st_input := st_input st; st_compilerOptions := Some c;
        st_program := st_program st |}, [], Ok tt).

Definition set_program `{Compiler} (p : Program) : M unit :=
  fun st =>
    ({| st_input := st_input st; st_compilerOptions := st_compilerOptions st;
        st_program := Some p |}, [], Ok tt).

(** A reporter run leaves the closure state alone. *)
Definition report `{Compiler} (r : list Event * res Exn unit) : M unit :=
  fun st => (st, fst r, snd r).

(** ** Code shared by the generations *)

Definition configFilename : string := "tsconfig.json".

Module Shared.

Section ConfigResolver.
Context `{Compiler}.

(** The frozen module-level [compilerOptions] constant of the file. *)
Variable compilerOptions : CompilerOptions.

Definition code_is_ENOENT (e : ErrnoException) : bool :=
  match errno_code e with
  | Some c => String.eqb c "ENOENT"
  | None => false
  end.

(** [getCompilerOptions] of [src/index.ts], [part_000] and [part_001]: a
    rejection carries the thrown array of diagnostics. *)
Definition getCompilerOptions (w : World) (options : option PluginOptions)
  : res (list Diagnostic) CompilerOptions :=
  let parsed0 := {| parsed_options := ∅; parsed_errors := [] |} in
  let parsed :=
    match options ≫= po_compilerOptions with
    | Some json => Ok (convertCompilerOptionsFromJson json "")
    | None =>
        match fs_readFile w configFilename with
        | Throw e =>
            if negb (code_is_ENOENT e) then
              Throw [ {| messageText := MsgText (errno_message e);
                         category := Error; file := None; start := None |} ]
            else Ok parsed0
        | Ok text =>
            if truthy_string text then
              let result := parseConfigFileTextToJson configFilename text in
              match snd result with
              | Some error => Throw [error]
              | None => Ok (parseJsonConfigFileContent (fst result) "")
              end
            else Ok parsed0
        end
    end in
  match parsed with
  | Throw diagnostics => Throw diagnostics
  | Ok parsed =>
      if truthy_number (Z.of_nat (length (parsed_errors parsed)))
      then Throw (parsed_errors parsed)
      else Ok (Object_assign (parsed_options parsed) compilerOptions)
  end.

End ConfigResolver.

Section Reporter.
Context `{Compiler} `{Runtime}.

Definition diag_message (diagnostic : Diagnostic) : string :=
  flattenDiagnosticMessageText (messageText diagnostic) sys_newLine.

(** [file ? file.fileName : null] *)
Definition diag_id (diagnostic : Diagnostic) : option string :=
  match file diagnostic with
  | Some f => Some (fileName f)
  | None => None
  end.

(** [file && diagnostic.start ? file.getLineAndCharacterOfPosition(...) : null] *)
Definition diag_lc (diagnostic : Diagnostic) : option LineAndCharacter :=
  match file diagnostic, start diagnostic with
  | Some f, Some pos =>
      if truthy_number pos
      then Some (getLineAndCharacterOfPosition f pos) else None
  | _, _ => None
  end.

(** [id && lc ? { file: id, line: lc.line + 1, column: lc.character } :
    undefined] *)
Definition diag_loc (diagnostic : Diagnostic) : option Location :=
  match diag_id diagnostic, diag_lc diagnostic with
  | Some id, Some lc =>
      if truthy_string id
      then Some {| loc_file := id; loc_line := line lc + 1;
                   loc_column := character lc |}
      else None
  | _, _ => None
  end.

(** [file && loc ? getCodeFrame(file.text, loc.line, loc.column) : null] *)
Definition diag_frame (diagnostic : Diagnostic) : option string :=
  match file diagnostic, diag_loc diagnostic with
  | Some f, Some loc =>
      Some (getCodeFrame (text f) (loc_line loc) (loc_column loc))
  | _, _ => None
  end.

(** [printDiagnostics] of [src/index.ts] and [part_001], with an optional
    sink.  The sink's [error] method never returns (its Rollup type is
    [never]): the call is logged and raises. *)
Fixpoint printDiagnostics (diagnostics : list Diagnostic)
    (context : option PluginContext) : list Event * res Exn unit :=
  match diagnostics with
  | [] => ([], Ok tt)
  | diagnostic :: rest =>
      let message := diag_message diagnostic in
      let id := diag_id diagnostic in
      let loc := diag_loc diagnostic in
      match context with
      | Some _ =>
          if category_eqb (category diagnostic) Error then
            ([EvError message loc], Throw (SinkError message loc))
          else if category_eqb (category diagnostic) Warning then
            let '(evs, r) := printDiagnostics rest context in
            (EvWarn message loc :: evs, r)
          else printDiagnostics rest context
      | None =>
          let frame := diag_frame diagnostic in
          ([], Throw (Failure message id loc frame))
      end
  end.

End Reporter.

Section OptionsHook.
Context `{Compiler}.

(** [!inputOptions.input] *)
Definition input_falsy (i : InputOption) : bool :=
  match i with
  | InputUndefined => true
  | InputString s => negb (truthy_string s)
  | InputArray _ | InputObject _ => false
  end.

(** [Array.isArray(i) ? i : typeof i == 'string' ? [i] : Object.values(i)] *)
Definition normalize_input (i : InputOption) : list string :=
  match i with
  | InputArray l => l
  | InputString s => [s]
  | InputObject entries => List.map snd entries
  | InputUndefined => [] (* not reached: [undefined] is falsy *)
  end.

(** The [options] hook of [src/index.ts] and [part_000]. *)
Definition options (i : InputOption) (st : State) : State :=
  if input_falsy i then st
  else {| st_input := normalize_input i;
          st_compilerOptions := st_compilerOptions st;
          st_program := st_program st |}.

End OptionsHook.

Section Compilation.
Context `{Compiler} `{Runtime}.

(** [if (!program) { const files = await glob(...); files.push(...input);
    program = ts.createProgram(files, compilerOptions); }], followed by the
    read of [program]. *)
Definition lazyProgram (w : World) : M Program :=
  p <- gets st_program ;;
  match p with
  | Some program => ret program
  | None =>
      let files := glob w "**/*.d.ts" "node_modules/**" in
      inp <- gets st_input ;;
      let files := files ++ inp in
      co <- gets st_compilerOptions ;;
      emit (EvCreateProgram files co) ;;;
      set_program (createProgram files co) ;;;
      ret (createProgram files co)
  end.

(** [const output = ts.transpileModule(source, { compilerOptions });
    return { code: output.outputText, map: output.sourceMapText ?
    JSON.parse(output.sourceMapText) : null };] *)
Definition transpile (source : string) : M (option TransformResult) :=
  co <- gets st_compilerOptions ;;
  let output := transpileModule source co in
  match sourceMapText output with
  | Some smt =>
      if truthy_string smt then
        match JSON_parse smt with
        | Some m => ret (Some {| code := outputText output; map := Some m |})
        | None => throw (SyntaxError smt)
        end
      else ret (Some {| code := outputText output; map := None |})
  | None => ret (Some {| code := outputText output; map := None |})
  end.

End Compilation.

End Shared.

(** ** [src/index.ts]: extension-preserving generation *)
Module Index.
Section WithLibraries.
Context `{Compiler} `{NodePath} `{Runtime}.

Definition extensions : list string := [".ts"; ".tsx"].

Definition compilerOptions : CompilerOptions :=
  {[ "importHelpers" := VBool true;
     "sourceMap" := VBool true;
     "module" := VModule MK_ES2022;
     "moduleResolution" := VModuleResolution MR_NodeJs ]}.

(** [extensions.includes(path.extname(filename))] *)
Definition getCompilerOptions := Shared.getCompilerOptions compilerOptions.
Definition printDiagnostics := Shared.printDiagnostics.
Definition options := Shared.options.

Definition isTsFile (filename : string) : bool :=
  existsb (String.eqb (Path.extname filename)) extensions.

(** The [for (const ext of extensions)] loop of [resolve]; a failed
    [fs.access] is caught and the loop goes on. *)
Fixpoint resolve_loop (w : World) (exts : list string)
    (importee importer : string) : option string :=
  match exts with
  | [] => None
  | ext :: exts' =>
      let filename := importee +:+ ext in
      let id := path_resolve (path_dirname importer) filename in
      if fs_access w id then Some id
      else resolve_loop w exts' importee importer
  end.

Definition resolve (w : World) (importee importer : string) : option string :=
  resolve_loop w extensions importee importer.

Definition resolveId (w : World) (importee : string)
    (importer : option string) : option string :=
  match importer with
  | None => None
  | Some importer =>
      if truthy_string (Path.extname importee)
         || negb (truthy_string importer)
         || negb (isTsFile importer)
      then None
      else js_or (resolve w importee importer)
                 (resolve w (path_join importee "index") importer)
  end.

(** [if (!compilerOptions) { try { ... } catch (diagnostics) { ... } }]: the
    reporter is called without a sink. *)
Definition lazyCompilerOptions (w : World) (options : option PluginOptions)
  : M unit :=
  co <- gets st_compilerOptions ;;
  match co with
  | Some _ => ret tt
  | None =>
      match getCompilerOptions w options with
      | Ok c => set_compilerOptions c
      | Throw diagnostics => report (printDiagnostics diagnostics None)
      end
  end.

(** [if (sourceFile) printDiagnostics(ts.getPreEmitDiagnostics(...), this)] *)
Definition preEmitCheck (program : Program) (id : string) : M unit :=
  match getSourceFile program id with
  | Some sourceFile =>
      report (printDiagnostics (getPreEmitDiagnostics program sourceFile)
                               (Some this))
  | None => ret tt
  end.

(** What [transform] does once the configuration step is over. *)
Definition compile (w : World) (source id : string)
  : M (option TransformResult) :=
  program <- Shared.lazyProgram w ;;
  preEmitCheck program id ;;;
  Shared.transpile source.

Definition transform (w : World) (options : option PluginOptions)
    (source id : string) : M (option TransformResult) :=
  if negb (isTsFile id) then ret None
  else
    lazyCompilerOptions w options ;;;
    compile w source id.

End WithLibraries.
End Index.

(** ** [src/unnamed/part_000]: extension-remapping generation *)
Module Part000.
Section WithLibraries.
Context `{Compiler} `{NodePath} `{Runtime}.

Definition tsExtensions : gset string :=
  {[ ".ts"; ".tsx"; ".cts"; ".mts" ]}.

(** The object literal, entries in source order.  Keys inherited from
    [Object.prototype] never start with a dot, while [path.extname] returns
    the empty string or a string starting with a dot, so [ext in
    jsExtensions] is membership among these four keys. *)
Definition jsExtensions : list (string * string) :=
  [ (".js", ".ts"); (".jsx", ".tsx"); (".cjs", ".cts"); (".mjs", ".mts") ].

Definition compilerOptions : CompilerOptions :=
  {[ "importHelpers" := VBool true;
     "sourceMap" := VBool true;
     "module" := VModule MK_ES2022;
     "moduleResolution" := VModuleResolution MR_Bundler ]}.

Definition getCompilerOptions := Shared.getCompilerOptions compilerOptions.
Definition options := Shared.options.

(** [jsExtensions[key]] *)
Fixpoint js_lookup (key : string) (obj : list (string * string))
  : option string :=
  match obj with
  | [] => None
  | (k, v) :: obj' => if String.eqb k key then Some v else js_lookup key obj'
  end.

(** [key in jsExtensions] *)
Definition js_in (key : string) (obj : list (string * string)) : bool :=
  match js_lookup key obj with Some _ => true | None => false end.

(** [String(v)] for a value that is a string or [undefined]. *)
Definition js_to_string (v : option string) : string :=
  match v with Some s => s | None => "undefined" end.

Definition no_dot (l : list ascii) : bool :=
  forallb (fun c => negb (Ascii.eqb c "."%char)) l.

(** [s.replace(/\.[^.]+$/, f)]: the leftmost position where a dot is
    followed by one or more non-dot characters up to the end of the string;
    the match is replaced by [f match].  Without a match the string is
    returned as it is. *)
Fixpoint replace_ext (f : string -> string) (s : list ascii) : list ascii :=
  match s with
  | [] => []
  | c :: s' =>
      if Ascii.eqb c "."%char && negb (Nat.eqb (length s') 0) && no_dot s'
      then list_ascii_of_string (f (string_of_list_ascii (c :: s')))
      else c :: replace_ext f s'
  end.

Definition isTsFile (filename : string) : bool :=
  bool_decide (Path.extname filename ∈ tsExtensions).

(** [printDiagnostics] with its mandatory sink. *)
Fixpoint printDiagnostics (diagnostics : list Diagnostic)
    (context : PluginContext) : list Event * res Exn unit :=
  match diagnostics with
  | [] => ([], Ok tt)
  | diagnostic :: rest =>
      let message := Shared.diag_message diagnostic in
      let loc := Shared.diag_loc diagnostic in
      if category_eqb (category diagnostic) Error then
        ([EvError message loc], Throw (SinkError message loc))
      else if category_eqb (category diagnostic) Warning then
        let '(evs, r) := printDiagnostics rest context in
        (EvWarn message loc :: evs, r)
      else printDiagnostics rest context
  end.

Definition resolve (w : World) (importee importer : string) : option string :=
  let ext := Path.extname importee in
  if negb (js_in ext jsExtensions) then None
  else
    let importee :=
      string_of_list_ascii
        (replace_ext (fun ext => js_to_string (js_lookup ext jsExtensions))
                     (list_ascii_of_string importee)) in
    let id := path_resolve (path_dirname importer) importee in
    if fs_access w id then Some id else None.

Definition resolveId (w : World) (importee : string)
    (importer : option string) : option string :=
  match importer with
  | None => None
  | Some importer =>
      if negb (truthy_string importer) || negb (isTsFile importer) then None
      else resolve w importee importer
  end.

(** [if (!compilerOptions) { try { ... } catch (diagnostics) { ... } }]: the
    reporter is called with the live sink. *)
Definition lazyCompilerOptions (w : World) (options : option PluginOptions)
  : M unit :=
  co <- gets st_compilerOptions ;;
  match co with
  | Some _ => ret tt
  | None =>
      match getCompilerOptions w options with
      | Ok c => set_compilerOptions c
      | Throw diagnostics => report (printDiagnostics diagnostics this)
      end
  end.

(** [if (sourceFile) printDiagnostics(ts.getPreEmitDiagnostics(...), this)] *)
Definition preEmitCheck (program : Program) (id : string) : M unit :=
  match getSourceFile program id with
  | Some sourceFile =>
      report (printDiagnostics (getPreEmitDiagnostics program sourceFile) this)
  | None => ret tt
  end.

(** What [transform] does once the configuration step is over. *)
Definition compile (w : World) (source id : string)
  : M (option TransformResult) :=
  program <- Shared.lazyProgram w ;;
  preEmitCheck program id ;;;
  Shared.transpile source.

Definition transform (w : World) (options : option PluginOptions)
    (source id : string) : M (option TransformResult) :=
  if negb (isTsFile id) then ret None
  else
    lazyCompilerOptions w options ;;;
    compile w source id.

End WithLibraries.
End Part000.

(** ** A build whose hook calls do not overlap

    [resolveId] reads and writes none of the three bindings and reports
    nothing, so a build is a sequence of [options] and [transform] calls.
    Here each call runs to completion before the next one starts; calls that
    overlap at an [await] are modelled further down, by [enter] and
    [resume]. *)
Section Build.
Context `{Compiler} `{Runtime}.

Variable transform : World -> string -> string -> M (option TransformResult).

Inductive Call : Type :=
  | CallOptions (i : InputOption)
  | CallTransform (w : World) (source id : string).

Definition step (c : Call) (st : State) : State * list Event :=
  match c with
  | CallOptions i => (Shared.options i st, [])
  | CallTransform w source id =>
      let '(st', evs, _) := transform w source id st in (st', evs)
  end.

Fixpoint run (calls : list Call) (st : State) : State * list Event :=
  match calls with
  | [] => (st, [])
  | c :: calls' =>
      let '(st1, evs1) := step c st in
      let '(st2, evs2) := run calls' st1 in
      (st2, evs1 ++ evs2)
  end.

End Build.

Definition is_create (ev : Event) : bool :=
  match ev with EvCreateProgram _ _ => true | _ => false end.

Definition creations (evs : list Event) : nat :=
  length (List.filter is_create evs).

(** [let input: string[] = []; let compilerOptions; let program;] *)
Definition initial `{Compiler} : State :=
  {| st_input := []; st_compilerOptions := None; st_program := None |}.

(** ** A small concrete host, used to run the model on examples *)
Module Demo.

(** The text of a config file that only switches [strict] on. *)
Definition strictText : string := "{compilerOptions:{strict:true}}".

Definition parseError : Diagnostic :=
  {| messageText := MsgText "'{' expected."; category := Error;
     file := None; start := None |}.

Definition unknownOption : Diagnostic :=
  {| messageText := MsgText "Unknown compiler option."; category := Error;
     file := None; start := None |}.

(** JSON values are already-converted option maps; a map with the flag
    [bogus] is reported as invalid. *)
Definition convert (j : CompilerOptions) : ParsedCommandLine :=
  {| parsed_options := j;
     parsed_errors :=
       match j !! "bogus" with Some _ => [unknownOption] | None => [] end |}.

#[warnings="-non-reversible-notation"]
Definition compiler : Compiler :=
  {| Json := CompilerOptions;
     Program := list string;
     sys_newLine := String (ascii_of_nat 10) EmptyString;
     flattenDiagnosticMessageText :=
       fun m _ => match m with MsgText s | MsgChain s _ => s end;
     getLineAndCharacterOfPosition :=
       fun _ pos => {| line := 0; character := pos |};
     convertCompilerOptionsFromJson := fun j _ => convert j;
     parseConfigFileTextToJson :=
       fun _ text =>
         if String.eqb text strictText
         then ({[ "strict" := VBool true ]}, None)
         else if String.eqb text "{compilerOptions:{bogus:1}}"
         then ({[ "bogus" := VNumber 1 ]}, None)
         else (∅, Some parseError);
     parseJsonConfigFileContent := fun j _ => convert j;
     createProgram := fun files _ => files;
     getSourceFile :=
       fun files id =>
         if existsb (String.eqb id) files
         then Some {| fileName := id; text := "let x: number = 1;" |}
         else None;
     getPreEmitDiagnostics := fun _ _ => [];
     transpileModule :=
       fun source _ => {| outputText := source; sourceMapText := Some "{}" |}
  |}.

Definition resolve_truthy (dir p : string)
  : truthy_string (dir +:+ "/" +:+ p) = true :=
  match dir with
  | EmptyString => eq_refl
  | String _ _ => eq_refl
  end.

(** Every importer lives in the directory [/p]; [resolve] and [join] are
    plain concatenation with a separator. *)
Definition nodePath : NodePath :=
  {| path_dirname := fun _ => "/p";
     path_resolve := fun dir p => dir +:+ "/" +:+ p;
     path_join := fun a b => a +:+ "/" +:+ b;
     path_resolve_truthy := resolve_truthy |}.

Definition runtime : Runtime :=
  {| SourceMap := string;
     JSON_parse := fun s => Some s;
     getCodeFrame := fun text _ _ => text |}.

(** A working directory without a config file, holding [/p/b.ts]. *)
Definition noConfig : World :=
  {| fs_readFile := fun _ =>
       Throw {| errno_code := Some "ENOENT"; errno_message := "no such file" |};
     fs_access := fun p => String.eqb p "/p/b.ts";
     glob := fun _ _ => ["types/env.d.ts"] |}.

(** A config file that cannot be read. *)
Definition unreadable : World :=
  {| fs_readFile := fun _ =>
       Throw {| errno_code := Some "EACCES";
                errno_message := "permission denied" |};
     fs_access := fun _ => false;
     glob := fun _ _ => [] |}.

(** A working directory without a config file, holding the given files. *)
Definition holding (files : list string) : World :=
  {| fs_readFile := fun _ =>
       Throw {| errno_code := Some "ENOENT"; errno_message := "no such file" |};
     fs_access := fun p => existsb (String.eqb p) files;
     glob := fun _ _ => [] |}.

Definition withConfig (text : string) : World :=
  {| fs_readFile := fun _ => Ok text;
     fs_access := fun _ => false;
     glob := fun _ _ => [] |}.

End Demo.

(** ** What can go wrong while the configuration is resolved

    The three failure conditions, as events of one resolution run.  An empty
    config file is falsy in [if (text)]: it is neither parsed nor resolved. *)
Section ConfigEvents.
Context `{Compiler}.

Definition explicit_options (options : option PluginOptions) : option Json :=
  options ≫= po_compilerOptions.

(** The config file read fails with an error other than ENOENT. *)
Definition read_fails_other (w : World) (options : option PluginOptions)
  : Prop :=
  explicit_options options = None /\
  exists e, fs_readFile w configFilename = Throw e /\
            errno_code e <> Some "ENOENT".

(** The text of the config file fails to parse. *)
Definition json_parse_fails (w : World) (options : option PluginOptions)
  : Prop :=
  explicit_options options = None /\
  exists text d,
    fs_readFile w configFilename = Ok text /\ text <> "" /\
    snd (parseConfigFileTextToJson configFilename text) = Some d.

(** Option conversion, or the resolution of the parsed config file, produces
    at least one diagnostic. *)
Definition conversion_reports (w : World) (options : option PluginOptions)
  : Prop :=
  (exists json,
      explicit_options options = Some json /\
      parsed_errors (convertCompilerOptionsFromJson json "") <> [])
  \/
  (explicit_options options = None /\
   exists text,
     fs_readFile w configFilename = Ok text /\ text <> "" /\
     snd (parseConfigFileTextToJson configFilename text) = None /\
     parsed_errors
       (parseJsonConfigFileContent
          (fst (parseConfigFileTextToJson configFilename text)) "") <> []).

Definition rejects (r : res (list Diagnostic) CompilerOptions) : Prop :=
  exists diagnostics, r = Throw diagnostics.

End ConfigEvents.

(** ** What the reporter is expected to do with a diagnostic *)
Section ReporterSpec.
Context `{Compiler} `{Runtime}.

(** The structured failure object [{ message, id, loc, frame }]. *)
Definition failure_of (d : Diagnostic) : Exn :=
  Failure (Shared.diag_message d) (Shared.diag_id d) (Shared.diag_loc d)
          (Shared.diag_frame d).

Definition is_error (d : Diagnostic) : bool := category_eqb (category d) Error.
Definition is_warning (d : Diagnostic) : bool :=
  category_eqb (category d) Warning.

(** The calls to the sink's warning channel for the Warning-category
    diagnostics of a sequence, in order. *)
Definition warnings_of (diagnostics : list Diagnostic) : list Event :=
  List.map (fun d => EvWarn (Shared.diag_message d) (Shared.diag_loc d))
           (List.filter is_warning diagnostics).

Definition sink_error_of (d : Diagnostic) : Exn :=
  SinkError (Shared.diag_message d) (Shared.diag_loc d).

End ReporterSpec.

Module Samples.

Definition a_ts : SourceFile :=
  {| fileName := "/p/a.ts"; text := "const n: number = 'one';" |}.

(** A type error on the first token of the file: offset 0. *)
Definition atOffsetZero : Diagnostic :=
  {| messageText := MsgText "Type 'string' is not assignable to type 'number'.";
     category := Error; file := Some a_ts; start := Some 0 |}.

Definition atOffsetSix : Diagnostic :=
  {| messageText := MsgText "Type 'string' is not assignable to type 'number'.";
     category := Error; file := Some a_ts; start := Some 6 |}.

Definition firstProblem : Diagnostic :=
  {| messageText := MsgText "Unknown compiler option 'strct'.";
     category := Error; file := None; start := None |}.

Definition secondProblem : Diagnostic :=
  {| messageText := MsgText "Option 'module' must be a string.";
     category := Error; file := None; start := None |}.

Definition unusedLabel : Diagnostic :=
  {| messageText := MsgText "Unused label."; category := Warning;
     file := None; start := None |}.

Definition suggestion : Diagnostic :=
  {| messageText := MsgText "File is a CommonJS module."; category := Suggestion;
     file := None; start := None |}.

End Samples.

(** The reading of the reporter under which, without a sink, every diagnostic
    of the sequence ends up thrown as its structured failure. *)
Definition each_diagnostic_thrown `{Compiler} `{Runtime} : Prop :=
  forall (diagnostics : list Diagnostic) (d : Diagnostic),
    In d diagnostics ->
    snd (Shared.printDiagnostics diagnostics None) = Throw (failure_of d).

(** ** Extension-preserving resolution, as the specification words it *)
Section PreservingSpec.
Context `{NodePath}.

(** The candidates in preference order: the specifier with '.ts', then with
    '.tsx', then the directory index ([path.join(importee, 'index')]) with
    '.ts', then with '.tsx'; each resolved against the importer's
    directory. *)
Definition preserving_candidates (importee importer : string) : list string :=
  let dir := path_dirname importer in
  [ path_resolve dir (importee +:+ ".ts");
    path_resolve dir (importee +:+ ".tsx");
    path_resolve dir (path_join importee "index" +:+ ".ts");
    path_resolve dir (path_join importee "index" +:+ ".tsx") ].

(** The specifier has no extension and the importer is a recognised file. *)
Definition preserving_applies (importee : string) (importer : option string)
  : bool :=
  match importer with
  | Some importer =>
      String.eqb (Path.extname importee) ""
      && (String.eqb (Path.extname importer) ".ts"
          || String.eqb (Path.extname importer) ".tsx")
  | None => false
  end.

(** The first candidate that exists on disk, if any. *)
Definition first_existing (w : World) (candidates : list string)
  : option string :=
  List.find (fs_access w) candidates.

End PreservingSpec.

(** ** Invariant of the [path.extname] scan

    After the characters behind position [n] have been visited: [endPos] is the
    length of the path and, if a dot has been seen in the last path
    component, [startDot] is the position of the last dot of the path. *)
Section ExtnameInvariant.
Import Path.

Definition dot_split (path : list ascii) (st : ExtScan) (n : nat) : Prop :=
  exists stem rest,
    path = stem ++ "."%char :: rest /\
    startDot st = Z.of_nat (length stem) /\
    Part000.no_dot rest = true /\ (n <= length stem)%nat.

Definition scanned (path : list ascii) (n : nat) (st : ExtScan) : Prop :=
  endPos st = Z.of_nat (length path) /\
  ((startDot st = -1 /\ Part000.no_dot (drop n path) = true)
   \/ dot_split path st n).

Definition concluded (path : list ascii) (st : ExtScan) : Prop :=
  endPos st = Z.of_nat (length path) /\
  (startDot st = -1 \/ dot_split path st 0).

End ExtnameInvariant.

(** ** The two generations with a guarded [options] hook, side by side *)

Inductive Generation : Type := IndexTs | Part000Ts.

Section Generations.
Context `{Compiler} `{NodePath} `{Runtime}.

Definition transform_of (g : Generation) (options : option PluginOptions)
  : World -> string -> string -> M (option TransformResult) :=
  fun w source id =>
    match g with
    | IndexTs => Index.transform w options source id
    | Part000Ts => Part000.transform w options source id
    end.

Definition isTsFile_of (g : Generation) : string -> bool :=
  match g with
  | IndexTs => Index.isTsFile
  | Part000Ts => Part000.isTsFile
  end.

Definition getCompilerOptions_of (g : Generation)
  : World -> option PluginOptions -> res (list Diagnostic) CompilerOptions :=
  match g with
  | IndexTs => Index.getCompilerOptions
  | Part000Ts => Part000.getCompilerOptions
  end.

(** What [transform] does once the configuration step is over. *)
Definition compile_of (g : Generation)
  : World -> string -> string -> M (option TransformResult) :=
  match g with
  | IndexTs => Index.compile
  | Part000Ts => Part000.compile
  end.

(** The ambient declaration files found by the glob, node_modules left out. *)
Definition declaration_files (w : World) : list string :=
  glob w "**/*.d.ts" "node_modules/**".

(** The reading of [transform] under which a failed configuration resolution
    is reported and the file is compiled all the same. *)
Definition config_failure_tolerated (g : Generation) : Prop :=
  forall w options source id st diagnostics,
    isTsFile_of g id = true ->
    st_compilerOptions st = None ->
    getCompilerOptions_of g w options = Throw diagnostics ->
    exists st' evs result,
      transform_of g options w source id st = (st', evs, Ok (Some result)).

End Generations.

(** ** Build-once discipline of a hook *)
Section Memoization.
Context `{Compiler} `{Runtime}.

(** A phase that leaves the program and the entry points alone and builds
    nothing. *)
Definition quiet {A} (m : M A) : Prop :=
  forall st st' evs r,
    m st = (st', evs, r) ->
    st_input st' = st_input st /\ st_program st' = st_program st /\
    creations evs = 0%nat.

(** One call either finds the program and keeps it, or finds it unset and
    then builds it at most once, over the declaration files followed by the
    captured entry points, with the configuration the call ends with. *)
Definition memoizes
    (transform : World -> string -> string -> M (option TransformResult))
  : Prop :=
  forall w source id st st' evs r,
    transform w source id st = (st', evs, r) ->
    st_input st' = st_input st /\
    match st_program st with
    | Some p => st_program st' = Some p /\ creations evs = 0%nat
    | None =>
        (st_program st' = None /\ creations evs = 0%nat)
        \/
        (let files := declaration_files w ++ st_input st in
         st_program st' = Some (createProgram files (st_compilerOptions st'))
         /\ creations evs = 1%nat
         /\ forall files' co',
              In (EvCreateProgram files' co') evs ->
              files' = files /\ co' = st_compilerOptions st')
    end.

(** The phases after the configuration step: the state changes only by the
    program being set, and only a call that finds it unset builds it. *)
Definition compile_outcome (w : World) (st st' : State) (evs : list Event)
  : Prop :=
  st_input st' = st_input st /\
  st_compilerOptions st' = st_compilerOptions st /\
  match st_program st with
  | Some p => st_program st' = Some p /\ creations evs = 0%nat
  | None =>
      let files := declaration_files w ++ st_input st in
      st_program st' = Some (createProgram files (st_compilerOptions st)) /\
      exists evs',
        evs = EvCreateProgram files (st_compilerOptions st) :: evs' /\
        creations evs' = 0%nat
  end.

End Memoization.

(** A two-file build on the demo host: entry point [/p/a.ts], which imports
    [/p/b.ts]. *)
Module DemoBuild.

Definition calls : list Call :=
  [ CallOptions (InputString "/p/a.ts");
    CallTransform Demo.noConfig "import { b } from './b';" "/p/a.ts";
    CallTransform Demo.noConfig "export const b = 1;" "/p/b.ts" ].

Definition captured : @State Demo.compiler :=
  {| st_input := ["/p/a.ts"]; st_compilerOptions := None;
     st_program := None |}.

End DemoBuild.

(** ** [transform] as an [async] function

    [transform] suspends at its two [await]s: at [await
    getCompilerOptions(options)], reached when [compilerOptions] is found
    unset, and at [await glob(...)], reached when [program] is found unset.
    The bundler loads and transforms the modules of a build concurrently, so
    another call may run while one is suspended.  [enter] runs a call up to
    its first suspension, [resume] from a suspension to the next one or to the
    end. *)
Section AsyncTransform.
Context `{Compiler} `{Runtime}.

Inductive AwaitPoint : Type :=
| AwaitConfig   (* await getCompilerOptions(options) *)
| AwaitGlob.    (* await glob('**/*.d.ts', ...) *)

Inductive Task : Type :=
| Suspended (at_point : AwaitPoint) (w : World) (source id : string)
| Finished (r : res Exn (option TransformResult)).

Variable g : Generation.
Variable options : option PluginOptions.

(** The reporter call of the [catch] block. *)
Definition report_config (diagnostics : list Diagnostic)
  : list Event * res Exn unit :=
  match g with
  | IndexTs => Index.printDiagnostics diagnostics None
  | Part000Ts => Part000.printDiagnostics diagnostics this
  end.

(** From [program.getSourceFile(id)] to the [return]. *)
Definition finish (program : Program) (source id : string)
  : M (option TransformResult) :=
  match g with
  | IndexTs => Index.preEmitCheck program id
  | Part000Ts => Part000.preEmitCheck program id
  end ;;;
  Shared.transpile source.

(** From [if (!program)] on. *)
Definition check_program (w : World) (source id : string) (st : State)
  : State * list Event * Task :=
  match st_program st with
  | Some program =>
      let '(st', evs, r) := finish program source id st in
      (st', evs, Finished r)
  | None => (st, [], Suspended AwaitGlob w source id)
  end.

Definition enter (w : World) (source id : string) (st : State)
  : State * list Event * Task :=
  if negb (isTsFile_of g id) then (st, [], Finished (Ok None))
  else
    match st_compilerOptions st with
    | Some _ => check_program w source id st
    | None => (st, [], Suspended AwaitConfig w source id)
    end.

Definition resume (t : Task) (st : State) : State * list Event * Task :=
  match t with
  | Finished r => (st, [], Finished r)
  | Suspended AwaitConfig w source id =>
      match getCompilerOptions_of g w options with
      | Ok c =>
          check_program w source id
            {| st_input := st_input st; st_compilerOptions := Some c;
               st_program := st_program st |}
      | Throw diagnostics =>
          match report_config diagnostics with
          | (evs, Throw e) => (st, evs, Finished (Throw e))
          | (evs, Ok _) =>
              let '(st', evs', t') := check_program w source id st in
              (st', evs ++ evs', t')
          end
      end
  | Suspended AwaitGlob w source id =>
      let files := declaration_files w ++ st_input st in
      let co := st_compilerOptions st in
      let program := createProgram files co in
      let '(st', evs, r) :=
        finish program source id
          {| st_input := st_input st; st_compilerOptions := co;
             st_program := Some program |} in
      (st', EvCreateProgram files co :: evs, Finished r)
  end.

(** One call alone: it is resumed as soon as it suspends. *)
Definition alone (w : World) (source id : string) (st : State)
  : State * list Event * Task :=
  let '(st1, evs1, t1) := enter w source id st in
  let '(st2, evs2, t2) := resume t1 st1 in
  let '(st3, evs3, t3) := resume t2 st2 in
  (st3, evs1 ++ evs2 ++ evs3, t3).

(** Two calls that overlap: the second starts while the first is suspended,
    and they are resumed in turn. *)
Definition overlapped (w : World) (source1 id1 source2 id2 : string)
    (st : State) : State * list Event * (Task * Task) :=
  let '(st1, evs1, a1) := enter w source1 id1 st in
  let '(st2, evs2, b1) := enter w source2 id2 st1 in
  let '(st3, evs3, a2) := resume a1 st2 in
  let '(st4, evs4, b2) := resume b1 st3 in
  let '(st5, evs5, a3) := resume a2 st4 in
  let '(st6, evs6, b3) := resume b2 st5 in
  (st6, evs1 ++ evs2 ++ evs3 ++ evs4 ++ evs5 ++ evs6, (a3, b3)).

End AsyncTransform.

(** ** The older generations

    What a hook of an older generation can throw besides the exceptions of
    the newer ones: a [TypeError] raised by the language or by Node itself. *)
Inductive HookError : Type :=
| TypeError (what : string)
| Raised (e : Exn).

(** [s.endsWith(suffix)] *)
Definition endsWith (s suffix : string) : bool :=
  String.prefix (String.rev suffix) (String.rev s).

(** ** [src/unnamed/part_001]: no directory index, unguarded [options] *)
Module Part001.
Section WithLibraries.
Context `{Compiler} `{NodePath} `{Runtime}.

Definition extensions : list string := [".ts"; ".tsx"].

Definition compilerOptions : CompilerOptions :=
  {[ "importHelpers" := VBool true;
     "sourceMap" := VBool true;
     "module" := VModule MK_ES2015;
     "moduleResolution" := VModuleResolution MR_NodeJs ]}.

Definition getCompilerOptions := Shared.getCompilerOptions compilerOptions.

(** [extensions.includes(path.extname(filename))]; [path.extname] throws a
    [TypeError] when it is not given a string. *)
Definition isTsFile (filename : option string) : res HookError bool :=
  match filename with
  | Some filename =>
      Ok (existsb (String.eqb (Path.extname filename)) extensions)
  | None => Throw (TypeError "The path argument must be of type string")
  end.

(** [input = Array.isArray(i) ? i : typeof i == 'string' ? [i] :
    Object.values(i)]: no guard, and [Object.values(undefined)] throws. *)
Definition options (i : InputOption) (st : State) : res HookError State :=
  match i with
  | InputArray l =>
      Ok {| st_input := l; st_compilerOptions := st_compilerOptions st;
            st_program := st_program st |}
  | InputString s =>
      Ok {| st_input := [s]; st_compilerOptions := st_compilerOptions st;
            st_program := st_program st |}
  | InputObject entries =>
      Ok {| st_input := List.map snd entries;
            st_compilerOptions := st_compilerOptions st;
            st_program := st_program st |}
  | InputUndefined =>
      Throw (TypeError "Cannot convert undefined or null to object")
  end.

(** The [for (const ext of extensions)] loop of [resolveId]; [fs.exists]
    answers what [fs.access] answers. *)
Fixpoint resolve_loop (w : World) (exts : list string)
    (importee importer : string) : option string :=
  match exts with
  | [] => None
  | ext :: exts' =>
      let filename := importee +:+ ext in
      let id := path_resolve (path_dirname importer) filename in
      if fs_access w id then Some id
      else resolve_loop w exts' importee importer
  end.

(** [if (path.extname(importee) || !isTsFile(importer)) return;]: the second
    operand is evaluated only when the first is falsy. *)
Definition resolveId (w : World) (importee : string)
    (importer : option string) : res HookError (option string) :=
  if truthy_string (Path.extname importee) then Ok None
  else
    match isTsFile importer with
    | Throw e => Throw e
    | Ok false => Ok None
    | Ok true =>
        match importer with
        | Some importer => Ok (resolve_loop w extensions importee importer)
        | None => Ok None (* not reached: [isTsFile] has thrown *)
        end
    end.

End WithLibraries.
End Part001.

(** ** [src/index.ts], second document: the oldest generation *)
Module IndexOld.
Section WithLibraries.
Context `{Compiler} `{NodePath} `{Runtime}.

(** What [getCompilerOptions] rejects with: a thrown array of diagnostics, or
    the error of the failed [readFile], which is no array. *)
Inductive Rejection : Type :=
| Diagnostics (diagnostics : list Diagnostic)
| ReadError (e : ErrnoException).

(** [getCompilerOptions()]: the file is read unconditionally, every read
    failure propagates, and the four options are assigned one by one. *)
Definition getCompilerOptions (w : World) : res Rejection CompilerOptions :=
  match fs_readFile w "tsconfig.json" with
  | Throw e => Throw (ReadError e)
  | Ok text =>
      let result := parseConfigFileTextToJson "tsconfig.json" text in
      match snd result with
      | Some error => Throw (Diagnostics [error])
      | None =>
          let parsed := parseJsonConfigFileContent (fst result) "" in
          if truthy_number (Z.of_nat (length (parsed_errors parsed)))
          then Throw (Diagnostics (parsed_errors parsed))
          else
            let compilerOptions := parsed_options parsed in
            let compilerOptions :=
              <["importHelpers" := VBool true]> compilerOptions in
            let compilerOptions :=
              <["sourceMap" := VBool true]> compilerOptions in
            let compilerOptions :=
              <["module" := VModule MK_ES2015]> compilerOptions in
            let compilerOptions :=
              <["moduleResolution" := VModuleResolution MR_NodeJs]>
                compilerOptions in
            Ok compilerOptions
      end
  end.

(** [input = Array.isArray(options.input) ? options.input : [options.input]]:
    what ends up in [input], element by element. *)
Definition options (i : InputOption) : list InputOption :=
  match i with
  | InputArray l => List.map InputString l
  | _ => [i]
  end.

(** [if (path.extname(importee) || !importer.endsWith('.ts')) return;] and
    the single candidate; [importer.endsWith] on [undefined] throws. *)
Definition resolveId (w : World) (importee : string)
    (importer : option string) : res HookError (option string) :=
  if truthy_string (Path.extname importee) then Ok None
  else
    match importer with
    | None =>
        Throw (TypeError "Cannot read properties of undefined")
    | Some importer =>
        if negb (endsWith importer ".ts") then Ok None
        else
          let filename := importee +:+ ".ts" in
          let id := path_resolve (path_dirname importer) filename in
          let exists_ := fs_access w id in
          if negb exists_ then Ok None else Ok (Some id)
    end.

(** The [catch (diagnostics) { printDiagnostics(diagnostics); }] block: the
    [for ... of] loop over a value that is no array throws. *)
Definition report_rejection (r : Rejection) : list Event * res HookError unit :=
  match r with
  | Diagnostics diagnostics =>
      match Shared.printDiagnostics diagnostics None with
      | (evs, Ok u) => (evs, Ok u)
      | (evs, Throw e) => (evs, Throw (Raised e))
      end
  | ReadError _ => ([], Throw (TypeError "diagnostics is not iterable"))
  end.

(** [transform]: the configuration step, then the steps of the later
    generations (their text is the one of [Index.compile]). *)
Definition transform (w : World) (source id : string) (st : State)
  : State * list Event * res HookError (option TransformResult) :=
  if negb (endsWith id ".ts") then (st, [], Ok None)
  else
    let configured :=
      match st_compilerOptions st with
      | Some _ => (st, [], Ok tt)
      | None =>
          match getCompilerOptions w with
          | Ok c =>
              ({| st_input := st_input st; st_compilerOptions := Some c;
                  st_program := st_program st |}, [], Ok tt)
          | Throw r => (st, fst (report_rejection r), snd (report_rejection r))
          end
      end in
    match configured with
    | (st1, evs1, Throw e) => (st1, evs1, Throw e)
    | (st1, evs1, Ok _) =>
        match Index.compile w source id st1 with
        | (st2, evs2, Ok r) => (st2, evs1 ++ evs2, Ok r)
        | (st2, evs2, Throw e) => (st2, evs1 ++ evs2, Throw (Raised e))
        end
    end.

End WithLibraries.
End IndexOld.

(** ** Vocabulary for the further properties *)
Section TransformSpec.
Context `{Compiler} `{Runtime}.

(** [if (sourceFile) printDiagnostics(...)] of either generation. *)
Definition preEmit_of (g : Generation) : Program -> string -> M unit :=
  match g with
  | IndexTs => Index.preEmitCheck
  | Part000Ts => Part000.preEmitCheck
  end.

(** The program a [transform] call works with: the cached one, or the one it
    builds. *)
Definition program_in_effect (w : World) (st : State) : Program :=
  match st_program st with
  | Some program => program
  | None =>
      createProgram (declaration_files w ++ st_input st) (st_compilerOptions st)
  end.

(** The construction events of a call that finds the program as in [st]. *)
Definition construction (w : World) (st : State) : list Event :=
  match st_program st with
  | Some _ => []
  | None =>
      [EvCreateProgram (declaration_files w ++ st_input st)
                       (st_compilerOptions st)]
  end.

(** The bindings once the call has the program. *)
Definition with_program (w : World) (st : State) : State :=
  {| st_input := st_input st; st_compilerOptions := st_compilerOptions st;
     st_program := Some (program_in_effect w st) |}.

(** The source map handed back for a transpile output. *)
Definition parsed_map (output : TranspileOutput) : option SourceMap :=
  match sourceMapText output with
  | Some smt => if truthy_string smt then JSON_parse smt else None
  | None => None
  end.

Definition is_sink_error (ev : Event) : bool :=
  match ev with EvError _ _ => true | _ => false end.

End TransformSpec.

(** The bindings once the configuration [c] is in place. *)
Definition with_config `{Compiler} (c : CompilerOptions) (st : State) : State :=
  {| st_input := st_input st; st_compilerOptions := Some c;
     st_program := st_program st |}.

(** The configuration [c] is available to a call: resolved before, or
    resolved by the call itself. *)
Definition config_available `{Compiler} `{Runtime} (g : Generation)
    (options : option PluginOptions) (w : World) (st : State)
    (c : CompilerOptions) : Prop :=
  st_compilerOptions st = Some c \/
  (st_compilerOptions st = None /\ getCompilerOptions_of g w options = Ok c).

(** The demo host with a type checker that finds something in every file of
    the program: an unused label, then a type error at offset 6. *)
Module DemoChecked.

Definition compiler : Compiler :=
  {| Json := @Json Demo.compiler;
     Program := @Program Demo.compiler;
     sys_newLine := @sys_newLine Demo.compiler;
     flattenDiagnosticMessageText :=
       @flattenDiagnosticMessageText Demo.compiler;
     getLineAndCharacterOfPosition :=
       @getLineAndCharacterOfPosition Demo.compiler;
     convertCompilerOptionsFromJson :=
       @convertCompilerOptionsFromJson Demo.compiler;
     parseConfigFileTextToJson := @parseConfigFileTextToJson Demo.compiler;
     parseJsonConfigFileContent := @parseJsonConfigFileContent Demo.compiler;
     createProgram := @createProgram Demo.compiler;
     getSourceFile := @getSourceFile Demo.compiler;
     getPreEmitDiagnostics :=
       fun _ _ => [Samples.unusedLabel; Samples.atOffsetSix;
                   Samples.firstProblem];
     transpileModule := @transpileModule Demo.compiler |}.

Definition captured : @State compiler :=
  {| st_input := ["/p/a.ts"]; st_compilerOptions := None;
     st_program := None |}.

End DemoChecked.

(** * Properties *)

(** ** [path.extname] on sample paths *)

Example extname_plain : Path.extname "/path/to/file.ext" = ".ext".
Proof. reflexivity. Qed.
Example extname_bare : Path.extname "./b" = "".
Proof. reflexivity. Qed.
Example extname_dotfile : Path.extname ".bashrc" = "".
Proof. reflexivity. Qed.
Example extname_dotdot : Path.extname "a/.." = "".
Proof. reflexivity. Qed.
Example extname_three_dots : Path.extname "..." = ".".
Proof. reflexivity. Qed.
Example extname_trailing_dot : Path.extname "file." = ".".
Proof. reflexivity. Qed.
Example extname_trailing_slash : Path.extname "file.ext//" = ".ext".
Proof. reflexivity. Qed.
Example extname_dot_slash : Path.extname "file./" = ".".
Proof. reflexivity. Qed.
Example extname_double_ext : Path.extname "a.d.ts" = ".ts".
Proof. reflexivity. Qed.

(** ** Configuration resolution *)

Section ConfigFacts.
Context `{Compiler}.
Variable overlay : CompilerOptions.

Lemma assign_overlay_wins (base : CompilerOptions) k v :
  overlay !! k = Some v -> Object_assign base overlay !! k = Some v.
Proof. intros Hk. unfold Object_assign. by apply lookup_union_Some_l. Qed.

Lemma assign_keeps_other (base : CompilerOptions) k :
  overlay !! k = None -> Object_assign base overlay !! k = base !! k.
Proof. intros Hk. unfold Object_assign. by apply lookup_union_r. Qed.

(** A successful resolution is the overlay assigned onto some base. *)
Lemma resolved_is_assign w options cfg :
  Shared.getCompilerOptions overlay w options = Ok cfg ->
  exists base, cfg = Object_assign base overlay.
Proof.
  unfold Shared.getCompilerOptions. intros Hres.
  repeat case_match; simplify_eq; eauto.
Qed.

(** A config file that is read, parsed and resolved without diagnostics. *)
Lemma resolved_from_file w options text json opts :
  options ≫= po_compilerOptions = None ->
  fs_readFile w configFilename = Ok text ->
  truthy_string text = true ->
  parseConfigFileTextToJson configFilename text = (json, None) ->
  parseJsonConfigFileContent json "" =
    {| parsed_options := opts; parsed_errors := [] |} ->
  Shared.getCompilerOptions overlay w options = Ok (Object_assign opts overlay).
Proof.
  intros Hopt Hread Htext Hparse Hcontent. unfold Shared.getCompilerOptions.
  rewrite Hopt, Hread, Htext, Hparse. simpl. rewrite Hcontent. reflexivity.
Qed.

End ConfigFacts.

(** C2: whatever configuration resolution is given (explicit
    [compilerOptions], a config file, or no config file), a returned
    configuration holds the four fixed overlay values of the newest
    generation -- [importHelpers: true], [sourceMap: true], [module: ES2022],
    [moduleResolution: Bundler] -- and every key of the overlay carries the
    overlay's value, whatever the user or the file said for it.  In
    particular, when the compiler reads [strict: true] out of the config file
    and reports nothing, resolution succeeds with [strict: true] and the four
    overlay values. *)
Theorem resolved_configuration_has_overlay `{Compiler} :
  (forall w options cfg,
      Part000.getCompilerOptions w options = Ok cfg ->
      cfg !! "importHelpers" = Some (VBool true) /\
      cfg !! "sourceMap" = Some (VBool true) /\
      cfg !! "module" = Some (VModule MK_ES2022) /\
      cfg !! "moduleResolution" = Some (VModuleResolution MR_Bundler) /\
      (forall k v, Part000.compilerOptions !! k = Some v -> cfg !! k = Some v))
  /\
  (forall w options text json opts,
      options ≫= po_compilerOptions = None ->
      fs_readFile w configFilename = Ok text ->
      truthy_string text = true ->
      parseConfigFileTextToJson configFilename text = (json, None) ->
      parseJsonConfigFileContent json "" =
        {| parsed_options := opts; parsed_errors := [] |} ->
      opts !! "strict" = Some (VBool true) ->
      exists cfg,
        Part000.getCompilerOptions w options = Ok cfg /\
        cfg !! "strict" = Some (VBool true) /\
        cfg !! "importHelpers" = Some (VBool true) /\
        cfg !! "sourceMap" = Some (VBool true) /\
        cfg !! "module" = Some (VModule MK_ES2022) /\
        cfg !! "moduleResolution" = Some (VModuleResolution MR_Bundler)).
Proof.
  split.
  - intros w options cfg Hres.
    destruct (resolved_is_assign _ _ _ _ Hres) as [base ->].
    split; [| split; [| split; [| split]]];
      [apply assign_overlay_wins; reflexivity .. |].
    intros k v Hk. by apply assign_overlay_wins.
  - intros w options text json opts Hopt Hread Htext Hparse Hcontent Hstrict.
    exists (Object_assign opts Part000.compilerOptions). split.
    + by apply resolved_from_file with (text := text) (json := json).
    + split.
      * rewrite assign_keeps_other; [exact Hstrict | reflexivity].
      * split; [| split; [| split]]; apply assign_overlay_wins; reflexivity.
Qed.

(** The theorem at work: explicit options asking for CommonJS modules still
    resolve to ES2022, and the [strict] config file keeps its flag. *)
Lemma resolved_configuration_has_overlay_witness :
  (exists cfg,
      @Part000.getCompilerOptions Demo.compiler Demo.noConfig
        (Some {| po_compilerOptions :=
                   Some ({[ "module" := VModule MK_CommonJS ]}
                           : @Json Demo.compiler) |}) = Ok cfg /\
      cfg !! "module" = Some (VModule MK_ES2022))
  /\
  (exists cfg,
      @Part000.getCompilerOptions Demo.compiler
        (Demo.withConfig Demo.strictText) None = Ok cfg /\
      cfg !! "strict" = Some (VBool true) /\
      cfg !! "moduleResolution" = Some (VModuleResolution MR_Bundler)).
Proof.
  destruct (@resolved_configuration_has_overlay Demo.compiler) as [Hall Hfile].
  split.
  - exists (Object_assign {[ "module" := VModule MK_CommonJS ]}
                          Part000.compilerOptions).
    split; [reflexivity |].
    apply (Hall Demo.noConfig
             (Some {| po_compilerOptions :=
                        Some ({[ "module" := VModule MK_CommonJS ]}
                                : @Json Demo.compiler) |})
             (Object_assign {[ "module" := VModule MK_CommonJS ]}
                            Part000.compilerOptions)).
    + reflexivity.
    + reflexivity.
  - destruct (Hfile (Demo.withConfig Demo.strictText) None Demo.strictText
                {[ "strict" := VBool true ]} {[ "strict" := VBool true ]})
      as (cfg & Hcfg & Hstrict & _ & _ & _ & Hres);
      try reflexivity.
    exists cfg. auto.
Defined.

Lemma truthy_string_true (s : string) : truthy_string s = true <-> s <> "".
Proof.
  unfold truthy_string. destruct (String.eqb_spec s ""); simpl; split;
    congruence.
Qed.

Lemma truthy_string_false (s : string) : truthy_string s = false <-> s = "".
Proof.
  unfold truthy_string. destruct (String.eqb_spec s ""); simpl; split;
    congruence.
Qed.

Lemma truthy_length_nonempty {A} (l : list A) :
  truthy_number (Z.of_nat (length l)) = true <-> l <> [].
Proof. unfold truthy_number. destruct l; simpl; split; congruence. Qed.

Lemma code_is_ENOENT_true (e : ErrnoException) :
  Shared.code_is_ENOENT e = true <-> errno_code e = Some "ENOENT".
Proof.
  unfold Shared.code_is_ENOENT. destruct (errno_code e) as [c |].
  - destruct (String.eqb_spec c "ENOENT"); split; congruence.
  - split; congruence.
Qed.

Section RejectionFacts.
Context `{Compiler}.
Variable overlay : CompilerOptions.

Lemma rejection_nonempty w options diagnostics :
  Shared.getCompilerOptions overlay w options = Throw diagnostics ->
  diagnostics <> [].
Proof.
  unfold Shared.getCompilerOptions. intros Hres.
  repeat case_match; simplify_eq; try discriminate;
    match goal with
    | Hlen : truthy_number _ = true |- _ =>
        by apply truthy_length_nonempty in Hlen
    end.
Qed.

Lemma rejects_iff w options :
  rejects (Shared.getCompilerOptions overlay w options) <->
  read_fails_other w options \/ json_parse_fails w options
  \/ conversion_reports w options.
Proof.
  unfold rejects, read_fails_other, json_parse_fails, conversion_reports,
    explicit_options, Shared.getCompilerOptions.
  destruct (options ≫= po_compilerOptions) as [json |].
  - destruct (truthy_number _) eqn:Hlen.
    + apply truthy_length_nonempty in Hlen. split; [| by eauto].
      intros _. right. right. left. eauto.
    + split; [intros [? ?]; discriminate |].
      intros [[? _] | [[? _] | [(j & Hj & Herr) | [? _]]]]; try discriminate.
      simplify_eq. apply truthy_length_nonempty in Herr. congruence.
  - destruct (fs_readFile w configFilename) as [text | e].
    + destruct (truthy_string text) eqn:Htext.
      * apply truthy_string_true in Htext.
        destruct (parseConfigFileTextToJson configFilename text)
          as [json [d |]] eqn:Hparse; simpl.
        -- split; [| by eauto]. intros _. right. left.
           split; [done |]. exists text, d. by rewrite Hparse.
        -- destruct (truthy_number _) eqn:Hlen.
           ++ apply truthy_length_nonempty in Hlen. split; [| by eauto].
              intros _. right. right. right. split; [done |].
              exists text. by rewrite Hparse.
           ++ split; [intros [? ?]; discriminate |].
              intros [(_ & e & ? & _) | [(_ & t & d & Ht & _ & Hd)
                | [(j & ? & _) | (_ & t & Ht & _ & _ & Herr)]]];
                try discriminate; simplify_eq.
              ** rewrite Hparse in Hd. discriminate.
              ** rewrite Hparse in Herr. simpl in Herr.
                 apply truthy_length_nonempty in Herr. congruence.
      * apply truthy_string_false in Htext. subst text. simpl.
        split; [intros [? ?]; discriminate |].
        intros [(_ & e & ? & _) | [(_ & t & d & Ht & Hne & _)
          | [(j & ? & _) | (_ & t & Ht & Hne & _)]]];
          try discriminate; simplify_eq; congruence.
    + destruct (Shared.code_is_ENOENT e) eqn:Hcode; simpl.
      * apply code_is_ENOENT_true in Hcode.
        split; [intros [? ?]; discriminate |].
        intros [(_ & e' & He & Hne) | [(_ & t & d & Ht & _)
          | [(j & ? & _) | (_ & t & Ht & _)]]];
          try discriminate; simplify_eq; congruence.
      * split; [| by eauto]. intros _. left. split; [done |].
        exists e. split; [done |]. intros Hc.
        apply code_is_ENOENT_true in Hc. congruence.
Qed.

Lemma missing_config_file_resolves w options e :
  explicit_options options = None ->
  fs_readFile w configFilename = Throw e ->
  errno_code e = Some "ENOENT" ->
  Shared.getCompilerOptions overlay w options = Ok overlay.
Proof.
  unfold explicit_options, Shared.getCompilerOptions.
  intros -> -> Hcode. apply code_is_ENOENT_true in Hcode. rewrite Hcode.
  simpl. unfold Object_assign. by rewrite (right_id_L ∅ (∪)).
Qed.

End RejectionFacts.

(** C3: configuration resolution rejects exactly when the config file read
    fails with an error other than ENOENT, or the text of the file fails to
    parse, or option conversion / config resolution produces at least one
    diagnostic; what it rejects with is a sequence of diagnostics that is
    never empty; and with a missing config file (ENOENT) it succeeds with the
    empty base configuration under the overlay, that is, with the overlay
    itself.  The statement holds for the overlay of every generation. *)
Theorem configuration_rejection `{Compiler} (overlay : CompilerOptions)
    (w : World) (options : option PluginOptions) :
  (rejects (Shared.getCompilerOptions overlay w options) <->
     read_fails_other w options \/ json_parse_fails w options
     \/ conversion_reports w options)
  /\
  (forall diagnostics,
      Shared.getCompilerOptions overlay w options = Throw diagnostics ->
      diagnostics <> [])
  /\
  (forall e,
      explicit_options options = None ->
      fs_readFile w configFilename = Throw e ->
      errno_code e = Some "ENOENT" ->
      Shared.getCompilerOptions overlay w options
        = Ok (Object_assign ∅ overlay) /\
      Object_assign ∅ overlay = overlay).
Proof.
  split; [apply rejects_iff |].
  split; [apply rejection_nonempty |].
  intros e Hopt Hread Hcode.
  assert (Hid : Object_assign ∅ overlay = overlay).
  { unfold Object_assign. by rewrite (right_id_L ∅ (∪)). }
  rewrite Hid. split; [| reflexivity].
  by apply missing_config_file_resolves with (e := e).
Qed.

(** The theorem at work: an unreadable config file rejects with one
    diagnostic, a missing one resolves to the overlay. *)
Lemma configuration_rejection_witness :
  (exists diagnostics,
      @Index.getCompilerOptions Demo.compiler Demo.unreadable None
        = Throw diagnostics /\ diagnostics <> [])
  /\
  @Part000.getCompilerOptions Demo.compiler Demo.noConfig None
    = Ok (Object_assign ∅ Part000.compilerOptions).
Proof.
  split.
  - eexists. split; [reflexivity |].
    apply (proj1 (proj2 (@configuration_rejection Demo.compiler
                           Index.compilerOptions Demo.unreadable None))).
    reflexivity.
  - apply (proj2 (proj2 (@configuration_rejection Demo.compiler
                           Part000.compilerOptions Demo.noConfig None))
             {| errno_code := Some "ENOENT"; errno_message := "no such file" |});
      reflexivity.
Defined.

(** ** Diagnostic reporter *)

Section ReporterFacts.
Context `{Compiler} `{Runtime}.

Lemma loc_needs_truthy_start (d : Diagnostic) (loc : Location) :
  Shared.diag_loc d = Some loc ->
  exists f pos, file d = Some f /\ start d = Some pos /\ pos <> 0.
Proof.
  unfold Shared.diag_loc, Shared.diag_id, Shared.diag_lc, truthy_number.
  destruct (file d) as [f |]; [| discriminate].
  destruct (start d) as [pos |]; [| discriminate].
  destruct (Z.eqb_spec pos 0); simpl; [discriminate |].
  intros _. eauto.
Qed.

Lemma loc_none_of_falsy_start (d : Diagnostic) :
  start d = Some 0 \/ start d = None -> Shared.diag_loc d = None.
Proof.
  unfold Shared.diag_loc, Shared.diag_id, Shared.diag_lc.
  intros [-> | ->]; destruct (file d); reflexivity.
Qed.

Lemma frame_none_of_loc_none (d : Diagnostic) :
  Shared.diag_loc d = None -> Shared.diag_frame d = None.
Proof.
  unfold Shared.diag_frame. intros ->. by destruct (file d).
Qed.

(** X3: a diagnostic with a named source file and a nonzero offset gets the
    location [{ file: fileName, line: lc.line + 1, column: lc.character }]. *)
Lemma loc_of_truthy_start (d : Diagnostic) (f : SourceFile) (pos : Z) :
  file d = Some f -> start d = Some pos -> pos <> 0 -> fileName f <> "" ->
  Shared.diag_loc d =
    Some {| loc_file := fileName f;
            loc_line := line (getLineAndCharacterOfPosition f pos) + 1;
            loc_column := character (getLineAndCharacterOfPosition f pos) |}.
Proof.
  intros Hf Hs Hpos Hname.
  unfold Shared.diag_loc, Shared.diag_id, Shared.diag_lc, truthy_number.
  rewrite Hf, Hs. destruct (Z.eqb_spec pos 0); [done |]. simpl.
  apply truthy_string_true in Hname. by rewrite Hname.
Qed.

Lemma report_without_sink (d : Diagnostic) (rest : list Diagnostic) :
  Shared.printDiagnostics (d :: rest) None = ([], Throw (failure_of d)).
Proof. reflexivity. Qed.

Lemma report_no_error (diagnostics : list Diagnostic) :
  forallb (fun d => negb (is_error d)) diagnostics = true ->
  Shared.printDiagnostics diagnostics (Some this)
    = (warnings_of diagnostics, Ok tt).
Proof.
  induction diagnostics as [| d rest IH]; [reflexivity |].
  simpl. intros [Hd Hrest]%andb_prop. unfold is_error in Hd.
  apply negb_true_iff in Hd. rewrite Hd.
  rewrite (IH Hrest). unfold warnings_of, is_warning. simpl.
  destruct (category_eqb (category d) Warning); reflexivity.
Qed.

Lemma report_first_error (pre post : list Diagnostic) (e : Diagnostic) :
  forallb (fun d => negb (is_error d)) pre = true ->
  is_error e = true ->
  Shared.printDiagnostics (pre ++ e :: post) (Some this)
    = (warnings_of pre ++ [EvError (Shared.diag_message e) (Shared.diag_loc e)],
       Throw (sink_error_of e)).
Proof.
  intros Hpre He. induction pre as [| d rest IH].
  - simpl. unfold is_error in He. by rewrite He.
  - simpl in Hpre. apply andb_prop in Hpre as [Hd Hrest].
    unfold is_error in Hd. apply negb_true_iff in Hd.
    simpl. rewrite Hd, (IH Hrest).
    unfold warnings_of, is_warning. simpl.
    destruct (category_eqb (category d) Warning); reflexivity.
Qed.

(** The reporter of the newest generation is the sink-optional reporter
    called with a sink. *)
Lemma part000_reporter (diagnostics : list Diagnostic) :
  Part000.printDiagnostics diagnostics this
    = Shared.printDiagnostics diagnostics (Some this).
Proof.
  induction diagnostics as [| d rest IH]; [reflexivity |].
  simpl. rewrite IH. reflexivity.
Qed.

End ReporterFacts.

(** The lemma at work on a diagnostic at offset 6 of [/p/a.ts]. *)
Lemma loc_of_truthy_start_witness :
  @Shared.diag_loc Demo.compiler Samples.atOffsetSix
  = Some {| loc_file := "/p/a.ts"; loc_line := 1; loc_column := 6 |}.
Proof.
  apply (@loc_of_truthy_start Demo.compiler Samples.atOffsetSix
           Samples.a_ts 6); [reflexivity | reflexivity | lia | discriminate].
Defined.

(** C7, as stated, fails: without a sink the [throw] inside the loop ends the
    reporter at the first diagnostic, so the second of two diagnostics is
    never thrown. *)
Lemma reporter_throws_only_first :
  ~ @each_diagnostic_thrown Demo.compiler Demo.runtime.
Proof.
  intros Hall.
  specialize (Hall [Samples.firstProblem; Samples.secondProblem]
                   Samples.secondProblem).
  simpl in Hall. discriminate Hall. auto.
Qed.

(** C7, amended: the reporter returns normally on an empty sequence.  Without
    a sink, the first diagnostic of the sequence is thrown as the structured
    failure [{ message, id, loc, frame }] and the rest is not looked at; the
    frame is [getCodeFrame] of the file's text at the location when the
    diagnostic has a file and a location, and [null] otherwise.  With a sink,
    the diagnostics are handled in order: Warning-category ones go to the
    warning channel, categories other than Error and Warning are ignored, and
    the first Error-category diagnostic goes to the error channel, which ends
    the reporter. *)
Theorem reporter_behaviour `{Compiler} `{Runtime} :
  (forall context, Shared.printDiagnostics [] context = ([], Ok tt))
  /\
  (forall d rest,
      Shared.printDiagnostics (d :: rest) None
        = ([], Throw (Failure (Shared.diag_message d) (Shared.diag_id d)
                              (Shared.diag_loc d) (Shared.diag_frame d))))
  /\
  (forall d,
      Shared.diag_frame d =
        match file d, Shared.diag_loc d with
        | Some f, Some loc =>
            Some (getCodeFrame (text f) (loc_line loc) (loc_column loc))
        | _, _ => None
        end)
  /\
  (forall diagnostics,
      forallb (fun d => negb (is_error d)) diagnostics = true ->
      Shared.printDiagnostics diagnostics (Some this)
        = (warnings_of diagnostics, Ok tt))
  /\
  (forall pre e post,
      forallb (fun d => negb (is_error d)) pre = true ->
      is_error e = true ->
      Shared.printDiagnostics (pre ++ e :: post) (Some this)
        = (warnings_of pre
             ++ [EvError (Shared.diag_message e) (Shared.diag_loc e)],
           Throw (SinkError (Shared.diag_message e) (Shared.diag_loc e)))).
Proof.
  split; [by intros [] |].
  split; [intros; apply report_without_sink |].
  split; [reflexivity |].
  split; [apply report_no_error |].
  intros pre e post. apply report_first_error.
Qed.

(** The theorem at work on a warning, a suggestion and two errors. *)
Lemma reporter_behaviour_witness :
  @Shared.printDiagnostics Demo.compiler Demo.runtime
    [Samples.unusedLabel; Samples.suggestion] (Some this)
    = ([EvWarn "Unused label." None], Ok tt)
  /\
  @Shared.printDiagnostics Demo.compiler Demo.runtime
    ([Samples.unusedLabel; Samples.suggestion]
       ++ Samples.firstProblem :: [Samples.secondProblem]) (Some this)
    = ([EvWarn "Unused label." None;
        EvError "Unknown compiler option 'strct'." None],
       Throw (SinkError "Unknown compiler option 'strct'." None)).
Proof.
  destruct (@reporter_behaviour Demo.compiler Demo.runtime)
    as (_ & _ & _ & Hquiet & Herror).
  split.
  - apply (Hquiet [Samples.unusedLabel; Samples.suggestion]). reflexivity.
  - apply (Herror [Samples.unusedLabel; Samples.suggestion]
                  Samples.firstProblem [Samples.secondProblem]);
      reflexivity.
Defined.

(** C8 at a diagnostic on the first character of a file: the diagnostic
    carries a source file and the offset 0, and the reporter computes no
    location for it, because [diagnostic.start] is tested for truthiness. *)
Theorem location_lost_at_offset_zero `{Compiler} `{Runtime} :
  file Samples.atOffsetZero = Some Samples.a_ts /\
  start Samples.atOffsetZero = Some 0 /\
  Shared.diag_loc Samples.atOffsetZero = None /\
  Shared.printDiagnostics [Samples.atOffsetZero] (Some this)
    = ([EvError (Shared.diag_message Samples.atOffsetZero) None],
       Throw (SinkError (Shared.diag_message Samples.atOffsetZero) None)) /\
  Shared.diag_loc Samples.atOffsetSix
    = Some {| loc_file := "/p/a.ts";
              loc_line :=
                line (getLineAndCharacterOfPosition Samples.a_ts 6) + 1;
              loc_column :=
                character (getLineAndCharacterOfPosition Samples.a_ts 6) |}.
Proof. repeat split. Qed.

(** C10: a diagnostic whose start offset is 0 or absent gets no location and,
    on the sink-less path, no code frame, even when it carries a source file;
    a location is produced only when a source file is present and the start
    offset is nonzero. *)
Theorem falsy_start_has_no_location `{Compiler} `{Runtime} :
  (forall d,
      start d = Some 0 \/ start d = None ->
      Shared.diag_loc d = None /\
      Shared.diag_frame d = None /\
      forall rest,
        Shared.printDiagnostics (d :: rest) None
          = ([], Throw (Failure (Shared.diag_message d) (Shared.diag_id d)
                                None None)))
  /\
  (forall d loc,
      Shared.diag_loc d = Some loc ->
      exists f pos, file d = Some f /\ start d = Some pos /\ pos <> 0).
Proof.
  split; [| apply loc_needs_truthy_start].
  intros d Hstart.
  pose proof (loc_none_of_falsy_start d Hstart) as Hloc.
  pose proof (frame_none_of_loc_none d Hloc) as Hframe.
  split; [exact Hloc |]. split; [exact Hframe |].
  intros rest. rewrite report_without_sink. unfold failure_of.
  by rewrite Hloc, Hframe.
Qed.

(** The theorem at work on a diagnostic at offset 0 of [/p/a.ts], and on one
    at offset 6. *)
Lemma falsy_start_has_no_location_witness :
  @Shared.printDiagnostics Demo.compiler Demo.runtime
    [Samples.atOffsetZero] None
    = ([], Throw (Failure "Type 'string' is not assignable to type 'number'."
                          (Some "/p/a.ts") None None))
  /\
  (exists f pos,
      file Samples.atOffsetSix = Some f /\
      start Samples.atOffsetSix = Some pos /\ pos <> 0).
Proof.
  destruct (@falsy_start_has_no_location Demo.compiler Demo.runtime)
    as [Hnone Honly].
  split.
  - apply (Hnone Samples.atOffsetZero). left. reflexivity.
  - apply (Honly Samples.atOffsetSix
                 {| loc_file := "/p/a.ts"; loc_line := 1; loc_column := 6 |}).
    reflexivity.
Defined.

(** ** The [options] hook *)

(** C9: an [options] call whose input declaration is missing or falsy (absent,
    or the empty string) leaves all three bindings, the captured entry points
    among them, as they were; a present declaration replaces the captured
    entry points by its normal form -- a single path becomes a one-element
    sequence, a sequence is kept as it is, a mapping gives its values in
    property order -- and touches nothing else.  Both generations with the
    guard share the hook. *)
Theorem options_hook_capture `{Compiler} (st : State) :
  Index.options InputUndefined st = st /\
  Index.options (InputString "") st = st /\
  (forall s, s <> "" ->
     Index.options (InputString s) st =
       {| st_input := [s]; st_compilerOptions := st_compilerOptions st;
          st_program := st_program st |}) /\
  (forall l,
     Index.options (InputArray l) st =
       {| st_input := l; st_compilerOptions := st_compilerOptions st;
          st_program := st_program st |}) /\
  (forall entries,
     Index.options (InputObject entries) st =
       {| st_input := List.map snd entries;
          st_compilerOptions := st_compilerOptions st;
          st_program := st_program st |}) /\
  (forall i, Part000.options i st = Index.options i st).
Proof.
  split; [reflexivity |]. split; [reflexivity |].
  split.
  - intros s Hs. unfold Index.options, Shared.options. simpl.
    apply truthy_string_true in Hs. by rewrite Hs.
  - repeat split.
Qed.

(** The theorem at work: a single entry path replaces two captured ones. *)
Lemma options_hook_capture_witness :
  @Index.options Demo.compiler (InputString "src/main.ts")
    {| st_input := ["a.ts"; "b.ts"]; st_compilerOptions := None;
       st_program := None |}
  = {| st_input := ["src/main.ts"]; st_compilerOptions := None;
       st_program := None |}.
Proof.
  apply (proj1 (proj2 (proj2 (@options_hook_capture Demo.compiler
    {| st_input := ["a.ts"; "b.ts"]; st_compilerOptions := None;
       st_program := None |})))).
  discriminate.
Defined.

(** ** Module resolution: extension-preserving mode *)

Section PreservingFacts.
Context `{Compiler} `{NodePath} `{Runtime}.

Lemma resolve_loop_find w exts importee importer :
  Index.resolve_loop w exts importee importer
  = List.find (fs_access w)
      (List.map (fun ext => path_resolve (path_dirname importer)
                                         (importee +:+ ext)) exts).
Proof.
  induction exts as [| ext exts IH]; [reflexivity |].
  simpl. rewrite IH. reflexivity.
Qed.

Lemma js_or_resolved w exts importee importer (b : option string) :
  js_or (Index.resolve_loop w exts importee importer) b
  = match Index.resolve_loop w exts importee importer with
    | Some id => Some id
    | None => b
    end.
Proof.
  induction exts as [| ext exts IH]; [reflexivity |].
  simpl. destruct (fs_access w _); [| exact IH].
  simpl. by rewrite path_resolve_truthy.
Qed.

Lemma extname_of_empty : Path.extname "" = "".
Proof. reflexivity. Qed.

End PreservingFacts.

(** C4: in extension-preserving mode, when the specifier has no extension and
    the importer is a recognised file ('.ts' or '.tsx'), [resolveId] returns
    the first candidate that exists on disk among: the specifier with '.ts',
    with '.tsx', then the directory index with '.ts', with '.tsx', each
    resolved against the importer's directory; it returns [undefined] when no
    candidate exists, when the specifier has an extension, and when the
    importer is absent or not recognised.  The result is a value in every
    case: no path of the function throws. *)
Theorem preserving_resolution `{Compiler} `{NodePath} `{Runtime}
    (w : World) (importee : string) (importer : option string) :
  Index.resolveId w importee importer =
    match importer with
    | Some from =>
        if preserving_applies importee importer
        then first_existing w (preserving_candidates importee from)
        else None
    | None => None
    end.
Proof.
  destruct importer as [from |]; [| reflexivity].
  unfold Index.resolveId, preserving_applies, Index.isTsFile,
    Index.extensions, truthy_string.
  destruct (String.eqb_spec (Path.extname importee) "") as [Hext | Hext];
    simpl; [| reflexivity].
  destruct (String.eqb_spec from "") as [-> | Hfrom]; simpl.
  - reflexivity.
  - rewrite orb_false_r.
    destruct (String.eqb (Path.extname from) ".ts"
              || String.eqb (Path.extname from) ".tsx"); simpl;
      [| reflexivity].
    unfold Index.resolve, Index.extensions. rewrite js_or_resolved.
    unfold first_existing, preserving_candidates. simpl.
    repeat (destruct (fs_access w _); [reflexivity |]). reflexivity.
Qed.

(** ** [path.extname] against the remapping regular expression *)

Section ExtnameFacts.
Import Path.

Lemma drop_rev_app (r suf : list ascii) :
  drop (length r) (rev r ++ suf) = suf.
Proof.
  rewrite <- (length_rev r). by rewrite drop_app_length.
Qed.

Lemma scanned_concluded path n st : scanned path n st -> concluded path st.
Proof.
  intros [He [[Hs _] | (stem & rest & Hp & Hs & Hnd & _)]]; split; auto.
  right. exists stem, rest. repeat split; auto. lia.
Qed.

Lemma scanned_step (r suf : list ascii) (c : ascii) (st st' : ExtScan) :
  scanned (rev r ++ c :: suf) (S (length r)) st ->
  endPos st' = endPos st ->
  startDot st' = startDot st ->
  (startDot st = -1 -> c <> "."%char) ->
  scanned (rev r ++ c :: suf) (length r) st'.
Proof.
  intros [Hend Hdot] He Hs Hc. split; [congruence |].
  destruct Hdot as [[Hs1 Hnd] | (stem & rest & Hp & Hs2 & Hnd & Hle)].
  - left. split; [congruence |].
    rewrite drop_rev_app. simpl.
    assert (Hsuf : drop (S (length r)) (rev r ++ c :: suf) = suf).
    { pose proof (drop_rev_app (c :: r) suf) as Hd. simpl in Hd.
      rewrite <- app_assoc in Hd. exact Hd. }
    rewrite Hsuf in Hnd. rewrite Hnd. specialize (Hc Hs1).
    destruct (Ascii.eqb_spec c "."%char); [done | reflexivity].
  - right. exists stem, rest. repeat split; try done; try congruence. lia.
Qed.

Lemma extname_loop_scanned (rpre : list ascii) :
  forall (suf : list ascii) (st : ExtScan),
    scanned (rev rpre ++ suf) (length rpre) st ->
    concluded (rev rpre ++ suf) (extname_loop rpre st).
Proof.
  induction rpre as [| c r IH]; intros suf st Hsc.
  - by apply scanned_concluded in Hsc.
  - simpl rev in *. rewrite <- app_assoc in *. simpl app in *.
    simpl length in Hsc.
    pose proof Hsc as [Hend Hdot].
    assert (Hpos : (endPos st =? -1) = false) by (apply Z.eqb_neq; lia).
    simpl. rewrite Hpos.
    destruct (Ascii.eqb_spec c CHAR_FORWARD_SLASH) as [Hslash | Hslash].
    + destruct (matchedSlash st); simpl.
      * apply IH. apply (scanned_step r suf c st st Hsc); auto.
        intros _. subst c. discriminate.
      * apply scanned_concluded with (n := length r).
        apply (scanned_step r suf c st _ Hsc); auto.
        intros _. subst c. discriminate.
    + destruct (Ascii.eqb_spec c CHAR_DOT) as [Hdotc | Hdotc].
      * destruct (Z.eqb_spec (startDot st) (-1)) as [Hsd | Hsd].
        -- apply IH. split; [exact Hend |]. right.
           exists (rev r), suf. repeat split.
           ++ by subst c.
           ++ simpl. by rewrite length_rev.
           ++ destruct Hdot as [[_ Hnd] | (stem & rest & _ & Hs2 & _)];
                [| lia].
              assert (Hsuf : drop (S (length r)) (rev r ++ c :: suf) = suf).
              { pose proof (drop_rev_app (c :: r) suf) as Hd. simpl in Hd.
                rewrite <- app_assoc in Hd. exact Hd. }
              by rewrite Hsuf in Hnd.
           ++ by rewrite length_rev.
        -- destruct (preDotState st =? 1); simpl; apply IH;
             apply (scanned_step r suf c st _ Hsc); auto; done.
      * destruct (Z.eqb_spec (startDot st) (-1)) as [Hsd | Hsd]; simpl;
          apply IH; apply (scanned_step r suf c st _ Hsc); auto.
Qed.

Lemma slice_suffix (stem ext : list ascii) :
  slice (stem ++ ext) (Z.of_nat (length stem))
        (Z.of_nat (length (stem ++ ext))) = ext.
Proof.
  unfold slice. rewrite Nat2Z.id, drop_app_length, length_app.
  replace (Z.to_nat _) with (length ext) by lia.
  apply firstn_all.
Qed.

(** Without a trailing slash, a non-empty [extname] is the part of the path
    from its last dot on. *)
Lemma extname_chars_suffix (path ext : list ascii) :
  last path <> Some CHAR_FORWARD_SLASH ->
  extname_chars path = ext -> ext <> [] ->
  exists stem rest,
    path = stem ++ ext /\ ext = CHAR_DOT :: rest /\
    Part000.no_dot rest = true.
Proof.
  intros Hlast Hext Hne. unfold extname_chars in Hext.
  destruct (rev path) as [| c r] eqn:Hrev.
  { simpl in Hext. congruence. }
  assert (Hpath : path = rev r ++ [c]).
  { rewrite <- (rev_involutive path), Hrev. reflexivity. }
  assert (Hc : c <> CHAR_FORWARD_SLASH).
  { intros ->. apply Hlast. rewrite Hpath. apply last_snoc. }
  assert (Hconcl : concluded path (extname_loop (c :: r) scan0)).
  { rewrite Hpath. simpl.
    destruct (Ascii.eqb_spec c CHAR_FORWARD_SLASH) as [| _]; [done |].
    apply extname_loop_scanned. split.
    - destruct (Ascii.eqb c CHAR_DOT); simpl;
        rewrite length_app, length_rev; simpl; lia.
    - destruct (Ascii.eqb_spec c CHAR_DOT) as [Hd | Hd]; simpl.
      + right. exists (rev r), []. repeat split.
        * by subst c.
        * by rewrite length_rev.
        * by rewrite length_rev.
      + left. split; [reflexivity |]. rewrite drop_rev_app. simpl.
        destruct (Ascii.eqb_spec c "."%char); [done | reflexivity]. }
  destruct Hconcl as [Hend [Hs | (stem & rest & Hp & Hs & Hnd & _)]].
  - rewrite Hs in Hext. simpl in Hext. congruence.
  - destruct (_ || _) in Hext; [congruence |].
    exists stem, rest. rewrite Hs, Hend in Hext. rewrite Hp in Hext at 1 2.
    rewrite slice_suffix in Hext. subst ext. auto.
Qed.

Lemma no_dot_before_dot (stem rest : list ascii) :
  Part000.no_dot (stem ++ "."%char :: rest) = false.
Proof.
  unfold Part000.no_dot. rewrite forallb_app. simpl. apply andb_false_r.
Qed.

(** The regular expression matches at the last dot of the string. *)
Lemma replace_ext_last_dot (f : string -> string) (stem rest : list ascii) :
  Part000.no_dot rest = true -> rest <> [] ->
  Part000.replace_ext f (stem ++ "."%char :: rest)
  = stem ++ list_ascii_of_string (f (string_of_list_ascii ("."%char :: rest))).
Proof.
  intros Hnd Hne. induction stem as [| c stem IH].
  - simpl. rewrite Hnd. destruct rest; [done | reflexivity].
  - simpl. rewrite no_dot_before_dot, andb_false_r. by rewrite IH.
Qed.

Lemma string_of_list_ascii_app (a b : list ascii) :
  string_of_list_ascii (a ++ b)
  = string_of_list_ascii a +:+ string_of_list_ascii b.
Proof. induction a as [| c a IH]; simpl; [reflexivity | by rewrite IH]. Qed.

End ExtnameFacts.

Section Remap.
Import Path.
Context `{NodePath}.

(** X2: when the importee does not end in a slash and its extension is a key
    of the table, the importee is a stem followed by that extension, and the
    path looked up on disk is the stem followed by the paired typed
    extension, resolved against the importer's directory; it is returned only
    if it exists. *)
Lemma remap_substitutes_pair (w : World) (importee importer ts : string) :
  last (list_ascii_of_string importee) <> Some CHAR_FORWARD_SLASH ->
  Part000.js_lookup (Path.extname importee) Part000.jsExtensions = Some ts ->
  exists stem,
    importee = stem +:+ Path.extname importee /\
    Part000.resolve w importee importer =
      let id := path_resolve (path_dirname importer) (stem +:+ ts) in
      if fs_access w id then Some id else None.
Proof.
  intros Hlast Hts.
  destruct (extname_chars_suffix (list_ascii_of_string importee)
              (list_ascii_of_string (Path.extname importee)))
    as (stem & rest & Hp & He & Hnd); [done | | |].
  { unfold Path.extname. by rewrite list_ascii_of_string_of_list_ascii. }
  { intros Hnil.
    assert (Hempty : Path.extname importee = "").
    { rewrite <- (string_of_list_ascii_of_string (Path.extname importee)).
      by rewrite Hnil. }
    rewrite Hempty in Hts. discriminate. }
  assert (Hext : Path.extname importee = string_of_list_ascii (CHAR_DOT :: rest)).
  { rewrite <- He. symmetry. apply string_of_list_ascii_of_string. }
  assert (Hrest : rest <> []).
  { intros ->. rewrite Hext in Hts. discriminate. }
  exists (string_of_list_ascii stem). split.
  - rewrite <- (string_of_list_ascii_of_string importee) at 1.
    rewrite Hp, string_of_list_ascii_app.
    by rewrite string_of_list_ascii_of_string.
  - unfold Part000.resolve, Part000.js_in. rewrite Hts. simpl negb. cbv iota.
    rewrite Hp, He. unfold CHAR_DOT.
    rewrite (replace_ext_last_dot _ stem rest Hnd Hrest).
    fold CHAR_DOT. rewrite <- Hext, Hts. simpl Part000.js_to_string.
    rewrite string_of_list_ascii_app, string_of_list_ascii_of_string.
    reflexivity.
Qed.

End Remap.

(** The lemma at work on [util.mjs] imported from [/p/app.ts]. *)
Lemma remap_substitutes_pair_witness :
  exists stem,
    "util.mjs" = stem +:+ Path.extname "util.mjs" /\
    @Part000.resolve Demo.nodePath (Demo.holding ["/p/util.mts"])
      "util.mjs" "/p/app.ts" =
      let id := @path_resolve Demo.nodePath
                  (@path_dirname Demo.nodePath "/p/app.ts") (stem +:+ ".mts") in
      if fs_access (Demo.holding ["/p/util.mts"]) id then Some id else None.
Proof.
  apply (@remap_substitutes_pair Demo.nodePath (Demo.holding ["/p/util.mts"])
           "util.mjs" "/p/app.ts" ".mts").
  - vm_compute. discriminate.
  - reflexivity.
Defined.

(** ** The transform hook *)

Lemma creations_app (a b : list Event) :
  creations (a ++ b) = (creations a + creations b)%nat.
Proof. unfold creations. by rewrite List.filter_app, length_app. Qed.

Section TransformFacts.
Context `{Compiler} `{NodePath} `{Runtime}.

Lemma reporter_creates_nothing diagnostics context :
  creations (fst (Shared.printDiagnostics diagnostics context)) = 0%nat.
Proof.
  induction diagnostics as [| d rest IH]; [reflexivity |].
  simpl. destruct context as [ctx |]; [| reflexivity].
  destruct (category_eqb (category d) Error); [reflexivity |].
  destruct (Shared.printDiagnostics rest (Some ctx)) as [evs r].
  destruct (category_eqb (category d) Warning); exact IH.
Qed.

Lemma part000_reporter_creates_nothing diagnostics :
  creations (fst (Part000.printDiagnostics diagnostics this)) = 0%nat.
Proof. rewrite part000_reporter. apply reporter_creates_nothing. Qed.

Lemma lazyProgram_set w st p :
  st_program st = Some p -> Shared.lazyProgram w st = (st, [], Ok p).
Proof.
  intros Hp. unfold Shared.lazyProgram, bind, gets, ret. by rewrite Hp.
Qed.

Lemma lazyProgram_unset w st :
  st_program st = None ->
  let files := declaration_files w ++ st_input st in
  let p := createProgram files (st_compilerOptions st) in
  Shared.lazyProgram w st =
    ({| st_input := st_input st; st_compilerOptions := st_compilerOptions st;
        st_program := Some p |},
     [EvCreateProgram files (st_compilerOptions st)], Ok p).
Proof.
  intros Hp. unfold Shared.lazyProgram, bind, gets, ret, emit, set_program.
  by rewrite Hp.
Qed.

Lemma transpile_pure source st :
  exists r, Shared.transpile source st = (st, [], r).
Proof.
  unfold Shared.transpile, bind, gets, ret, throw. simpl.
  repeat case_match; eauto.
Qed.

Lemma index_lazyCompilerOptions_quiet w options :
  quiet (Index.lazyCompilerOptions w options).
Proof.
  intros st st' evs r. unfold Index.lazyCompilerOptions, bind, gets, ret,
    set_compilerOptions, report. simpl.
  destruct (st_compilerOptions st); [intros; simplify_eq; auto |].
  destruct (Index.getCompilerOptions w options) as [c | ds]; simpl.
  - intros; simplify_eq; auto.
  - intros; simplify_eq. repeat split.
    apply reporter_creates_nothing.
Qed.

Lemma part000_lazyCompilerOptions_quiet w options :
  quiet (Part000.lazyCompilerOptions w options).
Proof.
  intros st st' evs r. unfold Part000.lazyCompilerOptions, bind, gets, ret,
    set_compilerOptions, report. simpl.
  destruct (st_compilerOptions st); [intros; simplify_eq; auto |].
  destruct (Part000.getCompilerOptions w options) as [c | ds]; simpl.
  - intros; simplify_eq; auto.
  - intros; simplify_eq. repeat split.
    apply part000_reporter_creates_nothing.
Qed.

Lemma no_creation_no_event (evs : list Event) files co :
  creations evs = 0%nat -> ~ In (EvCreateProgram files co) evs.
Proof.
  unfold creations. intros Hlen Hin.
  assert (Hf : In (EvCreateProgram files co) (List.filter is_create evs)).
  { apply List.filter_In. split; [exact Hin | reflexivity]. }
  destruct (List.filter is_create evs); [contradiction | discriminate].
Qed.

Lemma index_preEmitCheck_quiet program id st :
  exists evs r,
    Index.preEmitCheck program id st = (st, evs, r) /\ creations evs = 0%nat.
Proof.
  unfold Index.preEmitCheck, report, ret.
  destruct (getSourceFile program id); [| by eauto].
  do 2 eexists. split; [reflexivity |]. apply reporter_creates_nothing.
Qed.

Lemma part000_preEmitCheck_quiet program id st :
  exists evs r,
    Part000.preEmitCheck program id st = (st, evs, r)
    /\ creations evs = 0%nat.
Proof.
  unfold Part000.preEmitCheck, report, ret.
  destruct (getSourceFile program id); [| by eauto].
  do 2 eexists. split; [reflexivity |].
  apply part000_reporter_creates_nothing.
Qed.

Lemma index_compile_outcome w source id st st' evs r :
  Index.compile w source id st = (st', evs, r) -> compile_outcome w st st' evs.
Proof.
  unfold Index.compile, bind, compile_outcome.
  destruct (st_program st) as [p |] eqn:Hp.
  - rewrite (lazyProgram_set w st p Hp).
    destruct (index_preEmitCheck_quiet p id st) as (evs1 & r1 & -> & Hc).
    destruct r1 as [[] | e].
    + destruct (transpile_pure source st) as [r2 ->].
      intros; simplify_eq. rewrite Hp. simpl. rewrite app_nil_r. auto.
    + intros; simplify_eq. rewrite Hp. auto.
  - rewrite (lazyProgram_unset w st Hp). cbv zeta.
    match goal with
    | |- context [Index.preEmitCheck ?p id ?s] =>
        destruct (index_preEmitCheck_quiet p id s) as (evs1 & r1 & -> & Hc)
    end.
    destruct r1 as [[] | e].
    + match goal with
      | |- context [Shared.transpile source ?s] =>
          destruct (transpile_pure source s) as [r2 ->]
      end.
      intros; simplify_eq. simpl. rewrite app_nil_r. eauto 6.
    + intros; simplify_eq. simpl. eauto 6.
Qed.

Lemma part000_compile_outcome w source id st st' evs r :
  Part000.compile w source id st = (st', evs, r) ->
  compile_outcome w st st' evs.
Proof.
  unfold Part000.compile, bind, compile_outcome.
  destruct (st_program st) as [p |] eqn:Hp.
  - rewrite (lazyProgram_set w st p Hp).
    destruct (part000_preEmitCheck_quiet p id st) as (evs1 & r1 & -> & Hc).
    destruct r1 as [[] | e].
    + destruct (transpile_pure source st) as [r2 ->].
      intros; simplify_eq. rewrite Hp. simpl. rewrite app_nil_r. auto.
    + intros; simplify_eq. rewrite Hp. auto.
  - rewrite (lazyProgram_unset w st Hp). cbv zeta.
    match goal with
    | |- context [Part000.preEmitCheck ?p id ?s] =>
        destruct (part000_preEmitCheck_quiet p id s) as (evs1 & r1 & -> & Hc)
    end.
    destruct r1 as [[] | e].
    + match goal with
      | |- context [Shared.transpile source ?s] =>
          destruct (transpile_pure source s) as [r2 ->]
      end.
      intros; simplify_eq. simpl. rewrite app_nil_r. eauto 6.
    + intros; simplify_eq. simpl. eauto 6.
Qed.

Lemma memoizes_of_phases (guard : string -> bool) (config : World -> M unit)
    (comp : World -> string -> string -> M (option TransformResult)) :
  (forall w, quiet (config w)) ->
  (forall w source id st st' evs r,
      comp w source id st = (st', evs, r) -> compile_outcome w st st' evs) ->
  memoizes (fun w source id =>
              if negb (guard id) then ret None
              else config w ;;; comp w source id).
Proof.
  intros Hquiet Hcomp w source id st st' evs r.
  destruct (guard id); simpl.
  2:{ unfold ret. intros [= <- <- <-]. split; [done |].
      destruct (st_program st); auto. }
  unfold bind.
  destruct (config w st) as [[st1 evs1] r1] eqn:Hcfg.
  destruct (Hquiet w _ _ _ _ Hcfg) as (Hin1 & Hp1 & Hc1).
  destruct r1 as [[] | e].
  2:{ intros [= <- <- <-]. split; [done |]. rewrite Hp1.
      destruct (st_program st); auto. }
  destruct (comp w source id st1) as [[st2 evs2] r2] eqn:Hcmp.
  destruct (Hcomp _ _ _ _ _ _ _ Hcmp) as (Hin2 & Hco2 & Hp2).
  intros [= <- <- <-]. split; [congruence |].
  rewrite Hp1 in Hp2. rewrite creations_app, Hc1.
  destruct (st_program st) as [p |]; [exact Hp2 |].
  right. cbv zeta in *. destruct Hp2 as (Hp2 & evs' & -> & Hc').
  rewrite Hin1 in *. rewrite Hco2. split; [exact Hp2 |].
  split.
  { unfold creations in *. simpl. by rewrite Hc'. }
  intros files' co' [Hev | [Hev | Hev]]%in_app_or.
  - by apply no_creation_no_event in Hev.
  - by simplify_eq.
  - by apply no_creation_no_event in Hev.
Qed.

Lemma index_transform_memoizes options :
  memoizes (fun w => Index.transform w options).
Proof.
  apply (memoizes_of_phases Index.isTsFile
           (fun w => Index.lazyCompilerOptions w options) Index.compile).
  - intros w. apply index_lazyCompilerOptions_quiet.
  - apply index_compile_outcome.
Qed.

Lemma part000_transform_memoizes options :
  memoizes (fun w => Part000.transform w options).
Proof.
  apply (memoizes_of_phases Part000.isTsFile
           (fun w => Part000.lazyCompilerOptions w options) Part000.compile).
  - intros w. apply part000_lazyCompilerOptions_quiet.
  - apply part000_compile_outcome.
Qed.

Lemma transform_of_memoizes g options : memoizes (transform_of g options).
Proof.
  destruct g; [apply index_transform_memoizes
              | apply part000_transform_memoizes].
Qed.

End TransformFacts.

Section BuildFacts.
Context `{Compiler} `{NodePath} `{Runtime}.

Lemma run_builds_once
    (transform : World -> string -> string -> M (option TransformResult)) :
  memoizes transform ->
  forall calls st,
    (forall p, st_program st = Some p ->
               st_program (fst (run transform calls st)) = Some p /\
               creations (snd (run transform calls st)) = 0%nat)
    /\ (creations (snd (run transform calls st)) <= 1)%nat.
Proof.
  intros Hmemo. induction calls as [| c calls IH]; intros st.
  { simpl. split; [auto | unfold creations; simpl; lia]. }
  simpl. destruct (step transform c st) as [st1 evs1] eqn:Hstep.
  destruct (run transform calls st1) as [st2 evs2] eqn:Hrun.
  pose proof (IH st1) as [IHkeep IHonce]. rewrite Hrun in IHkeep, IHonce.
  simpl in *. rewrite creations_app.
  assert (Hst : match st_program st with
                | Some p => st_program st1 = Some p /\ creations evs1 = 0%nat
                | None =>
                    (st_program st1 = None /\ creations evs1 = 0%nat)
                    \/ (exists p, st_program st1 = Some p)
                       /\ creations evs1 = 1%nat
                end).
  { destruct c as [i | w source id]; simpl in Hstep.
    - injection Hstep as <- <-. unfold Shared.options.
      destruct (Shared.input_falsy i); simpl; destruct (st_program st); auto.
    - destruct (transform w source id st) as [[st' evs'] r] eqn:Ht.
      injection Hstep as <- <-.
      destruct (Hmemo _ _ _ _ _ _ _ Ht) as [_ Hp].
      destruct (st_program st); [exact Hp |].
      destruct Hp as [Hp | (Hp & Hc & _)]; [by left | right; eauto]. }
  split.
  - intros p Hp. rewrite Hp in Hst. destruct Hst as [Hp1 Hc1].
    destruct (IHkeep p Hp1) as [Hp2 Hc2]. split; [exact Hp2 | lia].
  - destruct (st_program st) as [p |].
    + destruct Hst as [_ Hc1]. lia.
    + destruct Hst as [[_ Hc1] | [[p Hp1] Hc1]]; [lia |].
      destruct (IHkeep p Hp1) as [_ Hc2]. lia.
Qed.

Lemma lazyCompilerOptions_resolved g options w st c :
  st_compilerOptions st = Some c \/
    (st_compilerOptions st = None /\
     getCompilerOptions_of g w options = Ok c) ->
  exists st1,
    match g with
    | IndexTs => Index.lazyCompilerOptions w options st
    | Part000Ts => Part000.lazyCompilerOptions w options st
    end = (st1, [], Ok tt) /\
    st_input st1 = st_input st /\ st_program st1 = st_program st /\
    st_compilerOptions st1 = Some c.
Proof.
  intros [Hco | [Hco Hres]]; destruct g; simpl in *;
    unfold Index.lazyCompilerOptions, Part000.lazyCompilerOptions, bind, gets,
      ret, set_compilerOptions; simpl; rewrite Hco; try rewrite Hres;
    eexists; (split; [reflexivity |]); auto.
Qed.

Lemma transform_builds g options w source id st c :
  isTsFile_of g id = true ->
  st_program st = None ->
  st_compilerOptions st = Some c \/
    (st_compilerOptions st = None /\
     getCompilerOptions_of g w options = Ok c) ->
  exists st' evs r,
    transform_of g options w source id st = (st', evs, r) /\
    st_compilerOptions st' = Some c /\
    st_program st' =
      Some (createProgram (declaration_files w ++ st_input st) (Some c)).
Proof.
  intros Hts Hp Hcfg.
  destruct (lazyCompilerOptions_resolved g options w st c Hcfg)
    as (st1 & Hlazy & Hin1 & Hp1 & Hco1).
  destruct g; simpl in Hts; unfold transform_of.
  - unfold Index.transform. rewrite Hts. simpl. unfold bind at 1.
    rewrite Hlazy.
    destruct (Index.compile w source id st1) as [[st' evs] r] eqn:Hcmp.
    apply index_compile_outcome in Hcmp.
    destruct Hcmp as (Hin & Hco' & Hprog).
    rewrite Hp1, Hp in Hprog. destruct Hprog as [Hprog _].
    do 3 eexists. split; [reflexivity |]. split; [congruence |].
    rewrite Hprog. cbv zeta. by rewrite Hin1, Hco1.
  - unfold Part000.transform. rewrite Hts. simpl. unfold bind at 1.
    rewrite Hlazy.
    destruct (Part000.compile w source id st1) as [[st' evs] r] eqn:Hcmp.
    apply part000_compile_outcome in Hcmp.
    destruct Hcmp as (Hin & Hco' & Hprog).
    rewrite Hp1, Hp in Hprog. destruct Hprog as [Hprog _].
    do 3 eexists. split; [reflexivity |]. split; [congruence |].
    rewrite Hprog. cbv zeta. by rewrite Hin1, Hco1.
Qed.

End BuildFacts.

(** X1, the build-once discipline for calls that do not overlap: in any
    sequence of [options] and [transform] calls, each run to completion, from
    the initial bindings, the whole-program context is constructed at most
    once.  A [transform] call that finds the
    program set keeps that same program and constructs nothing, and so does
    every later call; a call constructs the program only when it finds it
    unset, and then over the declaration files of the glob followed by the
    captured entry points, storing the result; and a call for a recognised
    file that finds the program unset and has a configuration (already
    resolved, or resolved by this call) does construct it. *)
Theorem sequential_build_constructs_once `{Compiler} `{Runtime}
    (g : Generation) (options : option PluginOptions) :
  (forall calls,
      (creations (snd (run (transform_of g options) calls initial)) <= 1)%nat)
  /\
  (forall calls st p,
      st_program st = Some p ->
      st_program (fst (run (transform_of g options) calls st)) = Some p /\
      creations (snd (run (transform_of g options) calls st)) = 0%nat)
  /\
  (forall w source id st st' evs r files co,
      transform_of g options w source id st = (st', evs, r) ->
      In (EvCreateProgram files co) evs ->
      st_program st = None /\
      files = declaration_files w ++ st_input st /\
      st_program st' = Some (createProgram files co))
  /\
  (forall w source id st c,
      isTsFile_of g id = true ->
      st_program st = None ->
      st_compilerOptions st = Some c \/
        (st_compilerOptions st = None /\
         getCompilerOptions_of g w options = Ok c) ->
      exists st' evs r,
        transform_of g options w source id st = (st', evs, r) /\
        st_compilerOptions st' = Some c /\
        st_program st' =
          Some (createProgram (declaration_files w ++ st_input st) (Some c))).
Proof.
  pose proof (transform_of_memoizes g options) as Hmemo.
  split; [intros calls; apply (run_builds_once _ Hmemo calls initial) |].
  split; [intros calls st p; apply (run_builds_once _ Hmemo calls st) |].
  split; [| apply transform_builds].
  intros w source id st st' evs r files co Ht Hev.
  destruct (Hmemo _ _ _ _ _ _ _ Ht) as [_ Hp].
  destruct (st_program st) as [p |].
  - destruct Hp as [_ Hc]. by apply no_creation_no_event in Hev.
  - destruct Hp as [[_ Hc] | (Hp & _ & Hall)].
    + by apply no_creation_no_event in Hev.
    + destruct (Hall _ _ Hev) as [-> ->]. auto.
Qed.

(** The theorem at work on the two-file demo build. *)
Lemma sequential_build_constructs_once_witness :
  (creations
     (snd (run (@transform_of Demo.compiler Demo.runtime
                  IndexTs None) DemoBuild.calls initial)) <= 1)%nat
  /\
  exists st' evs r,
    @transform_of Demo.compiler Demo.runtime Part000Ts None
      Demo.noConfig "import { b } from './b';" "/p/a.ts" DemoBuild.captured
      = (st', evs, r) /\
    st_compilerOptions st' = Some Part000.compilerOptions /\
    st_program st' =
      Some (@createProgram Demo.compiler ["types/env.d.ts"; "/p/a.ts"]
              (Some Part000.compilerOptions)).
Proof.
  split.
  - apply (proj1 (@sequential_build_constructs_once Demo.compiler Demo.runtime
                    IndexTs None)).
  - apply (proj2 (proj2 (proj2
             (@sequential_build_constructs_once Demo.compiler Demo.runtime
                Part000Ts None)))
             Demo.noConfig "import { b } from './b';" "/p/a.ts"
             DemoBuild.captured Part000.compilerOptions).
    + vm_compute. reflexivity.
    + reflexivity.
    + right. split; [reflexivity |]. vm_compute. reflexivity.
Defined.

Example demo_build_trace :
  snd (run (@transform_of Demo.compiler Demo.runtime
              IndexTs None) DemoBuild.calls initial)
  = [EvCreateProgram ["types/env.d.ts"; "/p/a.ts"]
                     (Some Index.compilerOptions)].
Proof. vm_compute. reflexivity. Qed.

(** ** Configuration failure inside [transform] *)

(** C6, as stated, fails: with an unreadable config file the transform of
    [src/index.ts] reports by throwing, so it returns no code and no map. *)
Lemma config_failure_not_tolerated :
  ~ @config_failure_tolerated Demo.compiler Demo.runtime IndexTs.
Proof.
  intros Htolerated.
  destruct (Htolerated Demo.unreadable None "const n = 1;" "/p/a.ts" initial
              [ {| messageText := MsgText "permission denied";
                   category := Error; file := None; start := None |} ]
              eq_refl eq_refl eq_refl)
    as (st' & evs & result & Hrun).
  vm_compute in Hrun. discriminate Hrun.
Qed.

Section ConfigFailureFacts.
Context `{Compiler} `{Runtime}.

Lemma index_config_failure w options source id st diagnostics :
  Index.isTsFile id = true ->
  st_compilerOptions st = None ->
  Index.getCompilerOptions w options = Throw diagnostics ->
  exists d rest,
    diagnostics = d :: rest /\
    Index.transform w options source id st = (st, [], Throw (failure_of d)).
Proof.
  intros Hts Hco Hres.
  destruct diagnostics as [| d rest].
  { by apply rejection_nonempty in Hres. }
  exists d, rest. split; [reflexivity |].
  unfold Index.transform. rewrite Hts. simpl.
  unfold bind at 1. unfold Index.lazyCompilerOptions, bind, gets. simpl.
  rewrite Hco, Hres. reflexivity.
Qed.

Lemma part000_config_failure w options source id st diagnostics :
  Part000.isTsFile id = true ->
  st_compilerOptions st = None ->
  Part000.getCompilerOptions w options = Throw diagnostics ->
  Part000.transform w options source id st =
    match Shared.printDiagnostics diagnostics (Some this) with
    | (evs, Throw e) => (st, evs, Throw e)
    | (evs, Ok _) =>
        let '(st', evs', r) := Part000.compile w source id st in
        (st', evs ++ evs', r)
    end.
Proof.
  intros Hts Hco Hres.
  unfold Part000.transform. rewrite Hts. simpl.
  unfold bind at 1. unfold Part000.lazyCompilerOptions, bind, gets. simpl.
  rewrite Hco, Hres. unfold report. rewrite part000_reporter. simpl.
  destruct (Shared.printDiagnostics diagnostics (Some this)) as [evs [[] | e]];
    reflexivity.
Qed.

End ConfigFailureFacts.

(** C6, amended: when lazy configuration resolution fails during the
    transform of a recognised file, the diagnostics are handed to the
    reporter and what happens next is the reporter's doing.  In
    [src/index.ts] the reporter is called without a sink: the first
    diagnostic is thrown as a structured failure, and the transform rejects
    with it, bindings untouched, nothing built, nothing transpiled.  In the
    newest generation the reporter is called with the live sink: the
    transform rejects at the first Error-category diagnostic, after the
    warnings for the Warning-category diagnostics before it; only when no
    diagnostic is of Error category does the transform go on, with the
    configuration still unset. *)
Theorem config_failure_reported `{Compiler} `{Runtime}
    (w : World) (options : option PluginOptions) (source id : string)
    (st : State) :
  (forall diagnostics,
      Index.isTsFile id = true ->
      st_compilerOptions st = None ->
      Index.getCompilerOptions w options = Throw diagnostics ->
      exists d rest,
        diagnostics = d :: rest /\
        Index.transform w options source id st
          = (st, [], Throw (Failure (Shared.diag_message d) (Shared.diag_id d)
                                    (Shared.diag_loc d) (Shared.diag_frame d))))
  /\
  (forall pre e post,
      Part000.isTsFile id = true ->
      st_compilerOptions st = None ->
      Part000.getCompilerOptions w options = Throw (pre ++ e :: post) ->
      forallb (fun d => negb (is_error d)) pre = true ->
      is_error e = true ->
      Part000.transform w options source id st
        = (st,
           warnings_of pre
             ++ [EvError (Shared.diag_message e) (Shared.diag_loc e)],
           Throw (SinkError (Shared.diag_message e) (Shared.diag_loc e))))
  /\
  (forall diagnostics,
      Part000.isTsFile id = true ->
      st_compilerOptions st = None ->
      Part000.getCompilerOptions w options = Throw diagnostics ->
      forallb (fun d => negb (is_error d)) diagnostics = true ->
      Part000.transform w options source id st
        = (let '(st', evs, r) := Part000.compile w source id st in
           (st', warnings_of diagnostics ++ evs, r))).
Proof.
  split; [intros; by apply index_config_failure |].
  split.
  - intros pre e post Hts Hco Hres Hpre He.
    rewrite (part000_config_failure _ _ _ _ _ _ Hts Hco Hres).
    by rewrite (report_first_error pre post e Hpre He).
  - intros diagnostics Hts Hco Hres Hquiet.
    rewrite (part000_config_failure _ _ _ _ _ _ Hts Hco Hres).
    by rewrite (report_no_error diagnostics Hquiet).
Qed.

(** The theorem at work: an unreadable config file makes both generations
    reject the transform of [/p/a.ts]. *)
Lemma config_failure_reported_witness :
  @Index.transform Demo.compiler Demo.runtime Demo.unreadable None
    "const n = 1;" "/p/a.ts" initial
    = (initial, [], Throw (Failure "permission denied" None None None))
  /\
  @Part000.transform Demo.compiler Demo.runtime Demo.unreadable None
    "const n = 1;" "/p/a.ts" initial
    = (initial, [EvError "permission denied" None],
       Throw (SinkError "permission denied" None)).
Proof.
  destruct (@config_failure_reported Demo.compiler Demo.runtime
              Demo.unreadable None "const n = 1;" "/p/a.ts" initial)
    as (Hindex & Herror & _).
  split.
  - destruct (Hindex
                [ {| messageText := MsgText "permission denied";
                     category := Error; file := None; start := None |} ]
                eq_refl eq_refl eq_refl)
      as (d & rest & Heq & Hrun).
    injection Heq as <- <-. exact Hrun.
  - apply (Herror []
             {| messageText := MsgText "permission denied"; category := Error;
                file := None; start := None |} []);
      reflexivity.
Defined.

(** ** Module resolution: extension-remapping mode *)

(** C5 at an importee with a trailing slash: [path.extname] ignores the
    slash and answers '.js', a key of the table, but the regular expression
    matches '.js/', which is no key, so the text "undefined" is substituted
    and the path looked up on disk is './utilundefined', not './util.ts'. *)
Theorem remap_mismatch_on_trailing_slash `{NodePath} (w : World) :
  Path.extname "./util.js/" = ".js" /\
  Part000.js_lookup ".js" Part000.jsExtensions = Some ".ts" /\
  Part000.resolveId w "./util.js/" (Some "/p/app.ts") =
    (let id := path_resolve (path_dirname "/p/app.ts") "./utilundefined" in
     if fs_access w id then Some id else None).
Proof. split; [reflexivity |]. split; reflexivity. Qed.

Example remap_resolves_undefined_file :
  @Part000.resolveId Demo.nodePath (Demo.holding ["/p/utilundefined"])
    "util.js/" (Some "/p/app.ts") = Some "/p/utilundefined".
Proof. reflexivity. Qed.

Example remap_misses_typed_file :
  @Part000.resolveId Demo.nodePath (Demo.holding ["/p/util.ts"])
    "util.js/" (Some "/p/app.ts") = None.
Proof. reflexivity. Qed.

Example remap_util_js :
  @Part000.resolveId Demo.nodePath (Demo.holding ["/p/util.ts"])
    "util.js" (Some "/p/app.ts") = Some "/p/util.ts".
Proof. reflexivity. Qed.

Example remap_defers_when_missing :
  @Part000.resolveId Demo.nodePath (Demo.holding ["/p/util.tsx"])
    "util.js" (Some "/p/app.ts") = None.
Proof. reflexivity. Qed.

Example remap_defers_on_other_extension :
  @Part000.resolveId Demo.nodePath (Demo.holding ["/p/util.ts"; "/p/util.json"])
    "util.json" (Some "/p/app.ts") = None.
Proof. reflexivity. Qed.

Example preserving_prefers_ts :
  @Index.resolveId Demo.nodePath (Demo.holding ["/p/b.tsx"; "/p/b.ts"])
    "b" (Some "/p/a.ts") = Some "/p/b.ts".
Proof. reflexivity. Qed.

Example preserving_directory_index :
  @Index.resolveId Demo.nodePath (Demo.holding ["/p/b/index.tsx"])
    "b" (Some "/p/a.tsx") = Some "/p/b/index.tsx".
Proof. reflexivity. Qed.

Example preserving_defers :
  @Index.resolveId Demo.nodePath (Demo.holding ["/p/b.ts"])
    "b.js" (Some "/p/a.ts") = None
  /\
  @Index.resolveId Demo.nodePath (Demo.holding ["/p/b.ts"]) "b" None = None
  /\
  @Index.resolveId Demo.nodePath (Demo.holding ["/p/b.ts"])
    "b" (Some "/p/a.js") = None
  /\
  @Index.resolveId Demo.nodePath (Demo.holding ["/p/c.ts"])
    "b" (Some "/p/a.ts") = None.
Proof. repeat split. Qed.

(** ** Overlapping [transform] calls *)

Section AsyncFacts.
Context `{Compiler} `{Runtime}.

Lemma compile_set g w source id st p :
  st_program st = Some p ->
  compile_of g w source id st = finish g p source id st.
Proof.
  intros Hp. destruct g; simpl;
    unfold Index.compile, Part000.compile, finish, bind at 1;
    rewrite (lazyProgram_set w st p Hp); simpl;
    match goal with
    | |- context [bind ?m ?k st] => destruct (bind m k st) as [[? ?] ?]
    end; reflexivity.
Qed.

Lemma compile_unset g w source id st :
  st_program st = None ->
  compile_of g w source id st =
    (let files := declaration_files w ++ st_input st in
     let co := st_compilerOptions st in
     let '(st', evs, r) :=
       finish g (createProgram files co) source id
         {| st_input := st_input st; st_compilerOptions := co;
            st_program := Some (createProgram files co) |} in
     (st', EvCreateProgram files co :: evs, r)).
Proof.
  intros Hp. destruct g; simpl;
    unfold Index.compile, Part000.compile, finish, bind at 1;
    rewrite (lazyProgram_unset w st Hp); reflexivity.
Qed.

Lemma check_program_compile g options w source id st :
  let '(st1, evs1, t1) := check_program g w source id st in
  let '(st2, evs2, t2) := resume g options t1 st1 in
  (st2, evs1 ++ evs2, t2)
  = (let '(st', evs, r) := compile_of g w source id st in
     (st', evs, Finished r)).
Proof.
  unfold check_program. destruct (st_program st) as [p |] eqn:Hp.
  - rewrite (compile_set g w source id st p Hp).
    destruct (finish g p source id st) as [[st' evs] r]. simpl.
    by rewrite app_nil_r.
  - rewrite (compile_unset g w source id st Hp). simpl.
    destruct (finish g _ source id _) as [[st' evs] r]. reflexivity.
Qed.

Lemma transform_as_phases g options w source id :
  transform_of g options w source id =
    if negb (isTsFile_of g id) then ret None
    else
      match g with
      | IndexTs => Index.lazyCompilerOptions w options
      | Part000Ts => Part000.lazyCompilerOptions w options
      end ;;;
      compile_of g w source id.
Proof. destruct g; reflexivity. Qed.

Lemma lazyCompilerOptions_cases g options w st :
  match g with
  | IndexTs => Index.lazyCompilerOptions w options
  | Part000Ts => Part000.lazyCompilerOptions w options
  end st =
  match st_compilerOptions st with
  | Some _ => (st, [], Ok tt)
  | None =>
      match getCompilerOptions_of g w options with
      | Ok c =>
          ({| st_input := st_input st; st_compilerOptions := Some c;
              st_program := st_program st |}, [], Ok tt)
      | Throw diagnostics =>
          (st, fst (report_config g diagnostics),
           snd (report_config g diagnostics))
      end
  end.
Proof.
  destruct g; simpl;
    unfold Index.lazyCompilerOptions, Part000.lazyCompilerOptions, bind, gets,
      ret, set_compilerOptions, report; simpl;
    destruct (st_compilerOptions st); try reflexivity;
    match goal with
    | |- context [match ?x with Ok _ => _ | Throw _ => _ end] => destruct x
    end; reflexivity.
Qed.

(** A call that is resumed as soon as it suspends is the [transform] of the
    sequential reading. *)
Lemma alone_is_transform g options w source id st :
  alone g options w source id st =
    (let '(st', evs, r) := transform_of g options w source id st in
     (st', evs, Finished r)).
Proof.
  rewrite transform_as_phases. unfold alone, enter.
  destruct (isTsFile_of g id); simpl; [| reflexivity].
  unfold bind at 1. rewrite lazyCompilerOptions_cases.
  destruct (st_compilerOptions st) as [c |] eqn:Hco.
  - pose proof (check_program_compile g options w source id st) as Hc.
    destruct (check_program g w source id st) as [[s1 e1] t1].
    destruct (resume g options t1 s1) as [[s2 e2] t2].
    destruct (compile_of g w source id st) as [[s' e'] r].
    injection Hc as -> <- ->. simpl. by rewrite app_nil_r.
  - cbn [resume].
    destruct (getCompilerOptions_of g w options) as [c | diagnostics].
    + match goal with
      | |- context [check_program g w source id ?s] =>
          pose proof (check_program_compile g options w source id s) as Hc;
          destruct (check_program g w source id s) as [[s1 e1] t1];
          destruct (compile_of g w source id s) as [[s' e'] r]
      end.
      destruct (resume g options t1 s1) as [[s2 e2] t2].
      injection Hc as -> <- ->. reflexivity.
    + destruct (report_config g diagnostics) as [evs [[] | e]]; simpl.
      * pose proof (check_program_compile g options w source id st) as Hc.
        destruct (check_program g w source id st) as [[s1 e1] t1].
        destruct (compile_of g w source id st) as [[s' e'] r].
        destruct (resume g options t1 s1) as [[s2 e2] t2].
        injection Hc as -> <- ->. by rewrite app_assoc.
      * by rewrite app_nil_r.
Qed.

Lemma finish_quiet g program source id st :
  exists evs r,
    finish g program source id st = (st, evs, r) /\ creations evs = 0%nat.
Proof.
  unfold finish, bind.
  assert (Hpre : exists evs r,
             match g with
             | IndexTs => Index.preEmitCheck program id
             | Part000Ts => Part000.preEmitCheck program id
             end st = (st, evs, r) /\ creations evs = 0%nat).
  { destruct g; [apply index_preEmitCheck_quiet
                | apply part000_preEmitCheck_quiet]. }
  destruct Hpre as (evs & r & -> & Hc).
  destruct r as [[] | e]; [| by eauto].
  destruct (transpile_pure source st) as [r ->].
  do 2 eexists. split; [reflexivity |]. by rewrite app_nil_r.
Qed.

Lemma overlapped_trace g options w source1 id1 source2 id2 st c :
  isTsFile_of g id1 = true ->
  isTsFile_of g id2 = true ->
  st_compilerOptions st = None ->
  st_program st = None ->
  getCompilerOptions_of g w options = Ok c ->
  exists st' evs1 evs2 t1 t2,
    overlapped g options w source1 id1 source2 id2 st
      = (st',
         EvCreateProgram (declaration_files w ++ st_input st) (Some c) :: evs1
           ++ EvCreateProgram (declaration_files w ++ st_input st) (Some c)
           :: evs2,
         (t1, t2))
    /\ creations evs1 = 0%nat /\ creations evs2 = 0%nat.
Proof.
  intros Hts1 Hts2 Hco Hp Hres.
  unfold overlapped, enter. rewrite Hts1, Hts2. simpl.
  repeat first
    [ rewrite Hco | rewrite Hp | rewrite Hres
    | progress cbn [resume check_program st_program st_compilerOptions
                    st_input] ].
  match goal with
  | |- context [finish g ?p source1 id1 ?s] =>
      destruct (finish_quiet g p source1 id1 s) as (evs1 & r1 & -> & Hc1)
  end.
  cbn [resume]. simpl.
  match goal with
  | |- context [finish g ?p source2 id2 ?s] =>
      destruct (finish_quiet g p source2 id2 s) as (evs2 & r2 & -> & Hc2)
  end.
  eexists _, evs1, evs2, (Finished r1), (Finished r2).
  simpl. rewrite ?app_nil_r. split; [reflexivity | auto].
Qed.

End AsyncFacts.

(** C1 on two [transform] calls that overlap, as the calls for two entry
    modules do: both find [program] unset before either has assigned it, and
    each constructs a whole-program context, so the context is constructed
    twice in one build. *)
Theorem overlapping_transforms_build_twice `{Compiler} `{Runtime}
    (g : Generation) (options : option PluginOptions) (w : World)
    (source1 id1 source2 id2 : string) (st : State) (c : CompilerOptions) :
  isTsFile_of g id1 = true ->
  isTsFile_of g id2 = true ->
  st_compilerOptions st = None ->
  st_program st = None ->
  getCompilerOptions_of g w options = Ok c ->
  creations (snd (fst (overlapped g options w source1 id1 source2 id2 st)))
    = 2%nat.
Proof.
  intros Hts1 Hts2 Hco Hp Hres.
  destruct (overlapped_trace g options w source1 id1 source2 id2 st c
              Hts1 Hts2 Hco Hp Hres)
    as (st' & evs1 & evs2 & t1 & t2 & -> & Hc1 & Hc2).
  simpl. change (?x :: evs1 ++ ?y :: evs2) with ([x] ++ evs1 ++ [y] ++ evs2).
  rewrite !creations_app, Hc1, Hc2. reflexivity.
Qed.

(** The theorem at work on the demo host: two entry points, [/p/a.ts] and
    [/p/b.ts], whose transforms overlap. *)
Lemma overlapping_transforms_build_twice_witness :
  creations
    (snd (fst (@overlapped Demo.compiler Demo.runtime IndexTs None
                 Demo.noConfig "export const a = 1;" "/p/a.ts"
                 "export const b = 2;" "/p/b.ts"
                 {| st_input := ["/p/a.ts"; "/p/b.ts"];
                    st_compilerOptions := None; st_program := None |})))
    = 2%nat.
Proof.
  apply (@overlapping_transforms_build_twice Demo.compiler Demo.runtime
           IndexTs None Demo.noConfig "export const a = 1;" "/p/a.ts"
           "export const b = 2;" "/p/b.ts"
           {| st_input := ["/p/a.ts"; "/p/b.ts"];
              st_compilerOptions := None; st_program := None |}
           Index.compilerOptions); reflexivity.
Defined.

Example overlapped_demo_trace :
  snd (fst (@overlapped Demo.compiler Demo.runtime Part000Ts None
              Demo.noConfig "export const a = 1;" "/p/a.ts"
              "export const b = 2;" "/p/b.ts"
              {| st_input := ["/p/a.ts"; "/p/b.ts"];
                 st_compilerOptions := None; st_program := None |}))
  = [ EvCreateProgram ["types/env.d.ts"; "/p/a.ts"; "/p/b.ts"]
                      (Some Part000.compilerOptions);
      EvCreateProgram ["types/env.d.ts"; "/p/a.ts"; "/p/b.ts"]
                      (Some Part000.compilerOptions) ].
Proof. vm_compute. reflexivity. Qed.

(** * Further properties of the hooks *)

(** ** Resolvers: what they return and how the generations relate *)

Section ResolverFacts.
Context `{Compiler} `{NodePath} `{Runtime}.

Lemma index_resolve_loop_exists w exts importee importer p :
  Index.resolve_loop w exts importee importer = Some p -> fs_access w p = true.
Proof.
  induction exts as [| ext exts IH]; simpl; [discriminate |].
  destruct (fs_access w (path_resolve (path_dirname importer)
                                      (importee +:+ ext))) eqn:Hacc;
    [| exact IH].
  intros [= <-]. exact Hacc.
Qed.

Lemma part001_resolve_loop_is_index w exts importee importer :
  Part001.resolve_loop w exts importee importer
  = Index.resolve_loop w exts importee importer.
Proof. induction exts as [| ext exts IH]; simpl; [| rewrite IH]; reflexivity. Qed.

Lemma index_resolveId_some w importee importer p :
  Index.resolveId w importee importer = Some p ->
  exists from,
    importer = Some from /\ Path.extname importee = "" /\
    Index.isTsFile from = true /\
    (Index.resolve w importee from = Some p \/
     Index.resolve w importee from = None /\
     Index.resolve w (path_join importee "index") from = Some p).
Proof.
  unfold Index.resolveId. destruct importer as [from |]; [| discriminate].
  destruct (truthy_string (Path.extname importee)) eqn:Hext; simpl;
    [discriminate |].
  apply truthy_string_false in Hext.
  destruct (truthy_string from); simpl; [| discriminate].
  destruct (Index.isTsFile from) eqn:Hts; simpl; [| discriminate].
  unfold Index.resolve at 1. rewrite js_or_resolved.
  fold (Index.resolve w importee from).
  destruct (Index.resolve w importee from) as [q |] eqn:Hdirect; intros Hres.
  - injection Hres as <-. exists from. auto.
  - exists from. auto 6.
Qed.

Lemma part000_resolveId_some w importee importer p :
  Part000.resolveId w importee importer = Some p ->
  fs_access w p = true /\
  Part000.js_in (Path.extname importee) Part000.jsExtensions = true.
Proof.
  unfold Part000.resolveId, Part000.resolve.
  destruct importer as [from |]; [| discriminate].
  destruct (_ || _); [discriminate |].
  destruct (Part000.js_in _ _); simpl; [| discriminate].
  destruct (fs_access w _) eqn:Hacc; [| discriminate].
  intros [= <-]. auto.
Qed.

End ResolverFacts.

(** X4: a path returned by [resolveId] exists on disk, in each of the four
    generations: the resolvers answer with a probed path or not at all. *)
Theorem resolved_path_exists `{NodePath}
    (w : World) (importee : string) (importer : option string) (p : string) :
  (Index.resolveId w importee importer = Some p -> fs_access w p = true) /\
  (Part000.resolveId w importee importer = Some p -> fs_access w p = true) /\
  (Part001.resolveId w importee importer = Ok (Some p) ->
   fs_access w p = true) /\
  (IndexOld.resolveId w importee importer = Ok (Some p) ->
   fs_access w p = true).
Proof.
  split; [| split; [| split]].
  - intros Hres.
    destruct (index_resolveId_some _ _ _ _ Hres)
      as (from & _ & _ & _ & [Hd | [_ Hd]]);
      by apply index_resolve_loop_exists in Hd.
  - intros Hres. by apply part000_resolveId_some in Hres as [? _].
  - unfold Part001.resolveId, Part001.isTsFile.
    destruct (truthy_string _); [discriminate |].
    destruct importer as [from |]; [| discriminate].
    destruct (existsb (String.eqb (Path.extname from)) Part001.extensions);
      [| discriminate].
    rewrite part001_resolve_loop_is_index. intros [= Hres].
    exact (index_resolve_loop_exists w Part001.extensions importee from p Hres).
  - unfold IndexOld.resolveId.
    destruct (truthy_string _); [discriminate |].
    destruct importer as [from |]; [| discriminate].
    destruct (negb (endsWith from ".ts")); [discriminate |].
    destruct (fs_access w _) eqn:Hacc; simpl; [| discriminate].
    intros [= <-]. exact Hacc.
Qed.

(** The theorem at work: [b] imported from [/p/a.ts] with [/p/b.ts] on disk,
    and [b.js] for the remapping resolver. *)
Lemma resolved_path_exists_witness :
  fs_access (Demo.holding ["/p/b.ts"]) "/p/b.ts" = true /\
  fs_access (Demo.holding ["/p/b.ts"]) "/p/b.ts" = true.
Proof.
  split.
  - apply (proj1 (@resolved_path_exists Demo.nodePath
                    (Demo.holding ["/p/b.ts"]) "b"
                    (Some "/p/a.ts") "/p/b.ts")).
    reflexivity.
  - apply (proj1 (proj2 (@resolved_path_exists Demo.nodePath
                           (Demo.holding ["/p/b.ts"]) "b.js"
                           (Some "/p/a.ts") "/p/b.ts"))).
    reflexivity.
Defined.

(** X5: the two resolution modes never answer for the same specifier: a
    specifier that the extension-preserving resolver resolves (it has no
    extension) is deferred by the remapping resolver, whatever the importer
    and the disk. *)
Theorem modes_are_exclusive `{NodePath}
    (w w' : World) (importee : string) (importer importer' : option string)
    (p : string) :
  Index.resolveId w importee importer = Some p ->
  Part000.resolveId w' importee importer' = None.
Proof.
  intros Hindex.
  destruct (index_resolveId_some _ _ _ _ Hindex) as (from & _ & Hext & _).
  destruct (Part000.resolveId w' importee importer') as [q |] eqn:Hremap;
    [| reflexivity].
  destruct (part000_resolveId_some _ _ _ _ Hremap) as [_ Hin].
  rewrite Hext in Hin. discriminate.
Qed.

(** The theorem at work: [b] from [/p/a.ts], with [/p/b.ts] on disk. *)
Lemma modes_are_exclusive_witness :
  @Part000.resolveId Demo.nodePath (Demo.holding ["/p/b.ts"; "/p/b"])
    "b" (Some "/p/a.ts") = None.
Proof.
  apply (@modes_are_exclusive Demo.nodePath
           (Demo.holding ["/p/b.ts"]) (Demo.holding ["/p/b.ts"; "/p/b"])
           "b" (Some "/p/a.ts") (Some "/p/a.ts") "/p/b.ts").
  reflexivity.
Defined.

(** X6: each generation of the extension-preserving resolver extends the one
    before.  What [part_001] resolves, [src/index.ts] resolves to the same
    path (and adds the directory index); what the oldest generation resolves
    from an importer with extension '.ts', [part_001] resolves to the same
    path (and adds '.tsx').  The older resolvers have no guard for a missing
    importer: [part_001] throws a [TypeError] exactly when the importer is
    missing and the specifier has no extension, where [src/index.ts]
    defers. *)
Theorem resolver_generations_extend `{NodePath}
    (w : World) (importee : string) :
  (forall importer p,
      Part001.resolveId w importee importer = Ok (Some p) ->
      Index.resolveId w importee importer = Some p)
  /\
  (forall from p,
      Path.extname from = ".ts" ->
      IndexOld.resolveId w importee (Some from) = Ok (Some p) ->
      Part001.resolveId w importee (Some from) = Ok (Some p))
  /\
  ((exists e, Part001.resolveId w importee None = Throw e) <->
   Path.extname importee = "")
  /\
  Index.resolveId w importee None = None.
Proof.
  split; [| split; [| split; [| reflexivity]]].
  - intros importer p. unfold Part001.resolveId, Part001.isTsFile,
      Index.resolveId, Index.isTsFile.
    destruct (truthy_string (Path.extname importee)); [discriminate |].
    destruct importer as [from |]; [| discriminate].
    change Part001.extensions with Index.extensions.
    destruct (existsb (String.eqb (Path.extname from)) Index.extensions)
      eqn:Hts; [| discriminate].
    rewrite part001_resolve_loop_is_index. intros [= Hres].
    destruct (String.eqb_spec from "") as [-> | Hfrom];
      [discriminate Hts |].
    apply truthy_string_true in Hfrom. rewrite Hfrom. simpl.
    unfold Index.resolve at 1. rewrite js_or_resolved.
    assert (Hr : Index.resolve_loop w Index.extensions importee from = Some p)
      by exact Hres.
    by rewrite Hr.
  - intros from p Hext. unfold IndexOld.resolveId, Part001.resolveId,
      Part001.isTsFile.
    destruct (truthy_string (Path.extname importee)); [discriminate |].
    destruct (negb (endsWith from ".ts")); [discriminate |].
    rewrite Hext. simpl.
    destruct (fs_access w (path_resolve (path_dirname from)
                                        (importee +:+ ".ts")));
      simpl; [| discriminate].
    intros [= <-]. reflexivity.
  - unfold Part001.resolveId.
    destruct (truthy_string (Path.extname importee)) eqn:Hext; simpl.
    + apply truthy_string_true in Hext. split; [| done].
      intros [e He]. discriminate.
    + apply truthy_string_false in Hext. split; [done | eauto].
Qed.

(** The theorem at work: [b] imported from [/p/a.ts], [/p/b.ts] on disk. *)
Lemma resolver_generations_extend_witness :
  @Index.resolveId Demo.nodePath (Demo.holding ["/p/b.ts"]) "b"
    (Some "/p/a.ts") = Some "/p/b.ts"
  /\
  @Part001.resolveId Demo.nodePath (Demo.holding ["/p/b.ts"]) "b"
    (Some "/p/a.ts") = Ok (Some "/p/b.ts")
  /\
  Path.extname "b" = "".
Proof.
  destruct (@resolver_generations_extend Demo.nodePath
              (Demo.holding ["/p/b.ts"]) "b") as (Hnew & Hold & Hthrow & _).
  split; [| split].
  - apply Hnew. reflexivity.
  - apply Hold; reflexivity.
  - apply Hthrow. eexists. reflexivity.
Defined.

(** ** Configuration: more on the resolvers of the generations *)

Section OverlayFacts.
Context `{Compiler}.

Lemma assigned_one_by_one (opts : CompilerOptions) :
  <["moduleResolution" := VModuleResolution MR_NodeJs]>
    (<["module" := VModule MK_ES2015]>
       (<["sourceMap" := VBool true]>
          (<["importHelpers" := VBool true]> opts)))
  = Object_assign opts Part001.compilerOptions.
Proof.
  unfold Object_assign, Part001.compilerOptions. apply map_eq. intros k.
  destruct (decide (k = "moduleResolution")) as [-> | ?].
  { rewrite lookup_insert_eq. symmetry.
    apply lookup_union_Some_l. reflexivity. }
  rewrite lookup_insert_ne by done.
  destruct (decide (k = "module")) as [-> | ?].
  { rewrite lookup_insert_eq. symmetry.
    apply lookup_union_Some_l. reflexivity. }
  rewrite lookup_insert_ne by done.
  destruct (decide (k = "sourceMap")) as [-> | ?].
  { rewrite lookup_insert_eq. symmetry.
    apply lookup_union_Some_l. reflexivity. }
  rewrite lookup_insert_ne by done.
  destruct (decide (k = "importHelpers")) as [-> | ?].
  { rewrite lookup_insert_eq. symmetry.
    apply lookup_union_Some_l. reflexivity. }
  rewrite lookup_insert_ne by done.
  symmetry. apply lookup_union_r.
  rewrite !lookup_insert_ne by done. by apply lookup_singleton_ne.
Qed.

End OverlayFacts.

(** X7: when the plugin is given explicit [compilerOptions], the file system
    is not consulted: resolution answers the same in every working directory,
    namely with the diagnostics of the conversion when there are any, and
    otherwise with the converted options under the overlay. *)
Theorem explicit_options_bypass_file `{Compiler}
    (overlay : CompilerOptions) (w w' : World)
    (options : option PluginOptions) (json : Json) :
  explicit_options options = Some json ->
  Shared.getCompilerOptions overlay w options
    = Shared.getCompilerOptions overlay w' options
  /\
  Shared.getCompilerOptions overlay w options
    = (let parsed := convertCompilerOptionsFromJson json "" in
       match parsed_errors parsed with
       | [] => Ok (Object_assign (parsed_options parsed) overlay)
       | _ :: _ => Throw (parsed_errors parsed)
       end).
Proof.
  unfold explicit_options, Shared.getCompilerOptions. intros ->.
  split; [reflexivity |]. simpl.
  destruct (parsed_errors (convertCompilerOptionsFromJson json ""));
    reflexivity.
Qed.

(** The theorem at work: explicit options in a directory whose config file
    cannot be read. *)
Lemma explicit_options_bypass_file_witness :
  @Shared.getCompilerOptions Demo.compiler Index.compilerOptions
    Demo.unreadable
    (Some {| po_compilerOptions :=
               Some ({[ "strict" := VBool true ]} : @Json Demo.compiler) |})
  = @Shared.getCompilerOptions Demo.compiler Index.compilerOptions
      Demo.noConfig
      (Some {| po_compilerOptions :=
                 Some ({[ "strict" := VBool true ]} : @Json Demo.compiler) |}).
Proof.
  apply (proj1 (@explicit_options_bypass_file Demo.compiler
                  Index.compilerOptions Demo.unreadable Demo.noConfig
                  (Some {| po_compilerOptions :=
                             Some ({[ "strict" := VBool true ]}
                                     : @Json Demo.compiler) |})
                  {[ "strict" := VBool true ]} eq_refl)).
Defined.

(** X8: the overlays of the older generations.  A configuration resolved by
    [src/index.ts] carries ES2022 modules and NodeJs resolution, one resolved
    by [part_001] or by the oldest generation ES2015 modules and NodeJs
    resolution, with [importHelpers] and [sourceMap] on in all of them.  On a
    config file that can be read and is not empty, the oldest resolver, which
    assigns the four options one by one, answers what the [Object.assign] of
    [part_001] answers. *)
Theorem older_overlays `{Compiler} (w : World) :
  (forall options cfg,
      Index.getCompilerOptions w options = Ok cfg ->
      cfg !! "importHelpers" = Some (VBool true) /\
      cfg !! "sourceMap" = Some (VBool true) /\
      cfg !! "module" = Some (VModule MK_ES2022) /\
      cfg !! "moduleResolution" = Some (VModuleResolution MR_NodeJs))
  /\
  (forall options cfg,
      Part001.getCompilerOptions w options = Ok cfg ->
      cfg !! "importHelpers" = Some (VBool true) /\
      cfg !! "sourceMap" = Some (VBool true) /\
      cfg !! "module" = Some (VModule MK_ES2015) /\
      cfg !! "moduleResolution" = Some (VModuleResolution MR_NodeJs))
  /\
  (forall text,
      fs_readFile w configFilename = Ok text -> text <> "" ->
      IndexOld.getCompilerOptions w =
        match Part001.getCompilerOptions w None with
        | Ok cfg => Ok cfg
        | Throw diagnostics => Throw (IndexOld.Diagnostics diagnostics)
        end).
Proof.
  split; [| split].
  - intros options cfg Hres.
    destruct (resolved_is_assign _ _ _ _ Hres) as [base ->].
    split; [| split; [| split]]; apply assign_overlay_wins; reflexivity.
  - intros options cfg Hres.
    destruct (resolved_is_assign _ _ _ _ Hres) as [base ->].
    split; [| split; [| split]]; apply assign_overlay_wins; reflexivity.
  - intros text Hread Htext. apply truthy_string_true in Htext.
    unfold IndexOld.getCompilerOptions, Part001.getCompilerOptions,
      Shared.getCompilerOptions.
    change "tsconfig.json" with configFilename. simpl. rewrite Hread, Htext.
    destruct (snd (parseConfigFileTextToJson configFilename text));
      [reflexivity |].
    destruct (truthy_number _); [reflexivity |].
    by rewrite assigned_one_by_one.
Qed.

(** The theorem at work on the [strict] config file. *)
Lemma older_overlays_witness :
  (exists cfg,
      @Index.getCompilerOptions Demo.compiler
        (Demo.withConfig Demo.strictText) None = Ok cfg /\
      cfg !! "module" = Some (VModule MK_ES2022))
  /\
  @IndexOld.getCompilerOptions Demo.compiler (Demo.withConfig Demo.strictText)
  = match @Part001.getCompilerOptions Demo.compiler
            (Demo.withConfig Demo.strictText) None with
    | Ok cfg => Ok cfg
    | Throw diagnostics => Throw (IndexOld.Diagnostics diagnostics)
    end.
Proof.
  destruct (@older_overlays Demo.compiler (Demo.withConfig Demo.strictText))
    as (Hindex & _ & Hold).
  split.
  - exists (Object_assign {[ "strict" := VBool true ]} Index.compilerOptions).
    split; [reflexivity |].
    apply (Hindex None
             (Object_assign {[ "strict" := VBool true ]}
                            Index.compilerOptions) eq_refl).
  - apply (Hold Demo.strictText); [reflexivity | discriminate].
Defined.

(** X9: the oldest generation cannot do without a config file.  When
    [tsconfig.json] cannot be read -- missing file included -- the rejection
    of [getCompilerOptions] is the read error itself, which the [catch] block
    hands to the reporter as if it were an array: the transform of every
    '.ts' file throws a [TypeError], and nothing is resolved, built or
    transpiled. *)
Theorem oldest_needs_config_file `{Compiler} `{Runtime}
    (w : World) (source id : string) (st : State) (e : ErrnoException) :
  endsWith id ".ts" = true ->
  st_compilerOptions st = None ->
  fs_readFile w "tsconfig.json" = Throw e ->
  IndexOld.transform w source id st
    = (st, [], Throw (TypeError "diagnostics is not iterable")).
Proof.
  intros Hts Hco Hread. unfold IndexOld.transform, IndexOld.getCompilerOptions.
  by rewrite Hts, Hco, Hread.
Qed.

(** The theorem at work in a directory without a config file. *)
Lemma oldest_needs_config_file_witness :
  @IndexOld.transform Demo.compiler Demo.runtime Demo.noConfig
    "export const a = 1;" "/p/a.ts" initial
  = (initial, [], Throw (TypeError "diagnostics is not iterable")).
Proof.
  apply (@oldest_needs_config_file Demo.compiler Demo.runtime Demo.noConfig
           "export const a = 1;" "/p/a.ts" initial
           {| errno_code := Some "ENOENT"; errno_message := "no such file" |});
    reflexivity.
Defined.

(** ** [transform]: configuration, output, diagnostics *)

Section TransformMore.
Context `{Compiler} `{Runtime}.

Lemma with_program_set w st p :
  st_program st = Some p -> with_program w st = st.
Proof.
  unfold with_program, program_in_effect. intros Hp. rewrite Hp.
  destruct st; simpl in *. by subst.
Qed.

(** The steps after the configuration step, in one equation. *)
Lemma compile_of_finish g w source id st :
  compile_of g w source id st =
    (let '(st', evs, r) :=
       finish g (program_in_effect w st) source id (with_program w st) in
     (st', construction w st ++ evs, r)).
Proof.
  unfold program_in_effect, construction.
  destruct (st_program st) as [p |] eqn:Hp.
  - rewrite (compile_set g w source id st p Hp).
    rewrite (with_program_set w st p Hp).
    destruct (finish g p source id st) as [[st' evs] r]. reflexivity.
  - rewrite (compile_unset g w source id st Hp). cbv zeta.
    unfold with_program, program_in_effect. rewrite Hp. reflexivity.
Qed.

Lemma transpile_result source st :
  Shared.transpile source st =
    (st, [],
     let output := transpileModule source (st_compilerOptions st) in
     match sourceMapText output with
     | Some smt =>
         if truthy_string smt then
           match JSON_parse smt with
           | Some m => Ok (Some {| code := outputText output; map := Some m |})
           | None => Throw (SyntaxError smt)
           end
         else Ok (Some {| code := outputText output; map := None |})
     | None => Ok (Some {| code := outputText output; map := None |})
     end).
Proof.
  unfold Shared.transpile, bind, gets, ret, throw. simpl.
  destruct (sourceMapText (transpileModule source (st_compilerOptions st)))
    as [smt |]; [| reflexivity].
  destruct (truthy_string smt); [| reflexivity].
  destruct (JSON_parse smt); reflexivity.
Qed.

Lemma transpile_ok source st st' evs r :
  Shared.transpile source st = (st', evs, Ok r) ->
  st' = st /\ evs = [] /\
  exists res,
    r = Some res /\
    code res = outputText (transpileModule source (st_compilerOptions st)) /\
    map res = parsed_map (transpileModule source (st_compilerOptions st)).
Proof.
  rewrite transpile_result. cbv zeta. unfold parsed_map.
  intros Heq. injection Heq as <- <- Hr. split; [done |]. split; [done |].
  destruct (sourceMapText _) as [smt |].
  - destruct (truthy_string smt).
    + destruct (JSON_parse smt) as [m |] eqn:Hm; simplify_eq.
      eexists. split; [reflexivity |]. simpl. auto.
    + simplify_eq. eexists. by split.
  - simplify_eq. eexists. by split.
Qed.

Lemma preEmit_of_report g program id st :
  preEmit_of g program id st =
    match getSourceFile program id with
    | Some sourceFile =>
        (st,
         fst (Shared.printDiagnostics
                (getPreEmitDiagnostics program sourceFile) (Some this)),
         snd (Shared.printDiagnostics
                (getPreEmitDiagnostics program sourceFile) (Some this)))
    | None => (st, [], Ok tt)
    end.
Proof.
  destruct g; simpl; unfold Index.preEmitCheck, Part000.preEmitCheck, report,
    ret, Index.printDiagnostics; destruct (getSourceFile program id);
    try reflexivity.
  by rewrite part000_reporter.
Qed.

Lemma finish_as_phases g program source id st :
  finish g program source id st =
    match preEmit_of g program id st with
    | (st1, evs1, Ok _) =>
        let '(st2, evs2, r) := Shared.transpile source st1 in
        (st2, evs1 ++ evs2, r)
    | (st1, evs1, Throw e) => (st1, evs1, Throw e)
    end.
Proof. destruct g; reflexivity. Qed.

Lemma finish_ok g program source id st st' evs r :
  finish g program source id st = (st', evs, Ok r) ->
  st' = st /\
  exists res,
    r = Some res /\
    code res = outputText (transpileModule source (st_compilerOptions st)) /\
    map res = parsed_map (transpileModule source (st_compilerOptions st)).
Proof.
  rewrite finish_as_phases, preEmit_of_report.
  destruct (getSourceFile program id) as [sf |].
  - destruct (snd (Shared.printDiagnostics _ _)) as [[] | e];
      [| discriminate].
    destruct (Shared.transpile source st) as [[st2 evs2] r2] eqn:Ht.
    intros [= <- <- ->]. apply transpile_ok in Ht as (-> & _ & Hres). auto.
  - destruct (Shared.transpile source st) as [[st2 evs2] r2] eqn:Ht.
    intros [= <- <- ->]. apply transpile_ok in Ht as (-> & _ & Hres). auto.
Qed.


Lemma transform_declines g options w source id st :
  isTsFile_of g id = false ->
  transform_of g options w source id st = (st, [], Ok None).
Proof. intros Hts. rewrite transform_as_phases, Hts. reflexivity. Qed.



End TransformMore.

Section TransformCases.
Context `{Compiler} `{Runtime}.

Lemma transform_with_config g options w source id st c :
  isTsFile_of g id = true ->
  config_available g options w st c ->
  transform_of g options w source id st
    = compile_of g w source id (with_config c st).
Proof.
  intros Hts Hcfg. rewrite transform_as_phases, Hts. simpl.
  unfold bind at 1. rewrite lazyCompilerOptions_cases.
  destruct Hcfg as [Hco | [Hco Hres]]; rewrite Hco.
  - assert (Hst : with_config c st = st).
    { unfold with_config. destruct st; simpl in *. by subst. }
    rewrite Hst.
    destruct (compile_of g w source id st) as [[st' evs] r]. reflexivity.
  - rewrite Hres. fold (with_config c st).
    destruct (compile_of g w source id (with_config c st))
      as [[st' evs] r]. reflexivity.
Qed.

Lemma first_error_split (diagnostics : list Diagnostic) :
  existsb is_error diagnostics = true ->
  exists pre e post,
    diagnostics = pre ++ e :: post /\
    forallb (fun d => negb (is_error d)) pre = true /\
    is_error e = true.
Proof.
  induction diagnostics as [| d rest IH]; [discriminate |].
  simpl. destruct (is_error d) eqn:Hd; simpl.
  - intros _. exists [], d, rest. auto.
  - intros Hrest. destruct (IH Hrest) as (pre & e & post & -> & Hpre & He).
    exists (d :: pre), e, post. simpl. rewrite Hd. auto.
Qed.

End TransformCases.



(** X11: what [transform] hands back.  It declines ([undefined], nothing
    touched, nothing reported) exactly the ids that are not recognised
    files.  When it returns a result, the code is the output text of
    [transpileModule] for the source under the configuration the call ends
    with, and the map is the parsed source-map text, or [null] when the text
    is absent or empty: the program and its diagnostics have no part in the
    output. *)
Theorem transform_output `{Compiler} `{Runtime}
    (g : Generation) (options : option PluginOptions) (w : World)
    (source id : string) (st st' : State) (evs : list Event)
    (r : option TransformResult) :
  transform_of g options w source id st = (st', evs, Ok r) ->
  match r with
  | None => isTsFile_of g id = false /\ st' = st /\ evs = []
  | Some res =>
      isTsFile_of g id = true /\
      code res
        = outputText (transpileModule source (st_compilerOptions st')) /\
      map res = parsed_map (transpileModule source (st_compilerOptions st'))
  end.
Proof.
  destruct (isTsFile_of g id) eqn:Hts.
  - rewrite transform_as_phases, Hts. simpl. unfold bind at 1.
    destruct (match g with
              | IndexTs => Index.lazyCompilerOptions w options
              | Part000Ts => Part000.lazyCompilerOptions w options
              end st) as [[st1 evs1] [[] | e]]; [| discriminate].
    rewrite compile_of_finish.
    destruct (finish g (program_in_effect w st1) source id
                (with_program w st1)) as [[st2 evs2] r2] eqn:Hfin.
    intros [= <- _ ->].
    apply finish_ok in Hfin as (-> & res & -> & Hcode & Hmap). auto.
  - rewrite (transform_declines g options w source id st Hts).
    intros [= <- <- <-]. auto.
Qed.

(** The theorem at work on the first transform of the demo build. *)
Lemma transform_output_witness :
  code {| code := "import { b } from './b';";
          map := Some ("{}" : @SourceMap Demo.runtime) |}
  = outputText
      (@transpileModule Demo.compiler "import { b } from './b';"
         (Some Index.compilerOptions)).
Proof.
  apply (@transform_output Demo.compiler Demo.runtime IndexTs None
           Demo.noConfig "import { b } from './b';" "/p/a.ts"
           DemoBuild.captured
           {| st_input := ["/p/a.ts"];
              st_compilerOptions := Some Index.compilerOptions;
              st_program :=
                Some (@createProgram Demo.compiler
                        ["types/env.d.ts"; "/p/a.ts"]
                        (Some Index.compilerOptions)) |}
           [EvCreateProgram ["types/env.d.ts"; "/p/a.ts"]
                            (Some Index.compilerOptions)]
           (Some {| code := "import { b } from './b';";
                    map := Some ("{}" : @SourceMap Demo.runtime) |})).
  vm_compute. reflexivity.
Defined.

(** X12: a type error aborts the transform of its file and of nothing else.
    When the program in effect has a source file for the id and its pre-emit
    diagnostics hold an Error-category diagnostic, the transform throws the
    sink's error for the first such diagnostic, after the warnings before it;
    nothing is transpiled, while the configuration and the program (built by
    this very call, if need be) stay cached for the next file. *)
Theorem type_error_aborts_transform `{Compiler} `{Runtime}
    (g : Generation) (options : option PluginOptions) (w : World)
    (source id : string) (st : State) (c : CompilerOptions)
    (sourceFile : SourceFile) (pre post : list Diagnostic) (e : Diagnostic) :
  isTsFile_of g id = true ->
  config_available g options w st c ->
  getSourceFile (program_in_effect w (with_config c st)) id
    = Some sourceFile ->
  getPreEmitDiagnostics (program_in_effect w (with_config c st)) sourceFile
    = pre ++ e :: post ->
  forallb (fun d => negb (is_error d)) pre = true ->
  is_error e = true ->
  transform_of g options w source id st
    = (with_program w (with_config c st),
       construction w (with_config c st) ++ warnings_of pre
         ++ [EvError (Shared.diag_message e) (Shared.diag_loc e)],
       Throw (SinkError (Shared.diag_message e) (Shared.diag_loc e))).
Proof.
  intros Hts Hcfg Hsf Hdiags Hpre He.
  rewrite (transform_with_config g options w source id st c Hts Hcfg).
  rewrite compile_of_finish, finish_as_phases, preEmit_of_report, Hsf, Hdiags.
  by rewrite (report_first_error pre post e Hpre He).
Qed.

(** The theorem at work: the checked demo host finds a warning and then a
    type error in [/p/a.ts]. *)
Lemma type_error_aborts_transform_witness :
  @transform_of DemoChecked.compiler Demo.runtime IndexTs None Demo.noConfig
    "const n: number = 'one';" "/p/a.ts" DemoChecked.captured
  = ({| st_input := ["/p/a.ts"];
        st_compilerOptions := Some Index.compilerOptions;
        st_program :=
          Some (@createProgram DemoChecked.compiler
                  ["types/env.d.ts"; "/p/a.ts"]
                  (Some Index.compilerOptions)) |},
     [ EvCreateProgram ["types/env.d.ts"; "/p/a.ts"]
                       (Some Index.compilerOptions);
       EvWarn "Unused label." None;
       EvError "Type 'string' is not assignable to type 'number'."
               (Some {| loc_file := "/p/a.ts"; loc_line := 1;
                        loc_column := 6 |}) ],
     Throw (SinkError "Type 'string' is not assignable to type 'number'."
                      (Some {| loc_file := "/p/a.ts"; loc_line := 1;
                               loc_column := 6 |}))).
Proof.
  apply (@type_error_aborts_transform DemoChecked.compiler Demo.runtime
           IndexTs None Demo.noConfig "const n: number = 'one';" "/p/a.ts"
           DemoChecked.captured Index.compilerOptions
           {| fileName := "/p/a.ts"; text := "let x: number = 1;" |}
           [Samples.unusedLabel] [Samples.firstProblem] Samples.atOffsetSix);
    try reflexivity.
  right. split; reflexivity.
Defined.

(** X13: a file the program does not know is transpiled unchecked.  When the
    program in effect has no source file for the id -- a module that is
    neither a declaration file nor an entry point nor reachable from one, or
    an entry point captured after the program was built -- the sink is not
    called at all, and the transform ends as the transpile step ends. *)
Theorem unknown_file_is_not_checked `{Compiler} `{Runtime}
    (g : Generation) (options : option PluginOptions) (w : World)
    (source id : string) (st : State) (c : CompilerOptions) :
  isTsFile_of g id = true ->
  config_available g options w st c ->
  getSourceFile (program_in_effect w (with_config c st)) id = None ->
  transform_of g options w source id st
    = (with_program w (with_config c st),
       construction w (with_config c st),
       snd (Shared.transpile source (with_program w (with_config c st)))).
Proof.
  intros Hts Hcfg Hsf.
  rewrite (transform_with_config g options w source id st c Hts Hcfg).
  rewrite compile_of_finish, finish_as_phases, preEmit_of_report, Hsf.
  rewrite transpile_result. simpl. by rewrite app_nil_r.
Qed.

(** The theorem at work: [/p/c.ts] is no entry point of the demo build. *)
Lemma unknown_file_is_not_checked_witness :
  @transform_of DemoChecked.compiler Demo.runtime Part000Ts None Demo.noConfig
    "export const c = 3;" "/p/c.ts" DemoChecked.captured
  = ({| st_input := ["/p/a.ts"];
        st_compilerOptions := Some Part000.compilerOptions;
        st_program :=
          Some (@createProgram DemoChecked.compiler
                  ["types/env.d.ts"; "/p/a.ts"]
                  (Some Part000.compilerOptions)) |},
     [ EvCreateProgram ["types/env.d.ts"; "/p/a.ts"]
                       (Some Part000.compilerOptions) ],
     Ok (Some {| code := "export const c = 3;";
                 map := Some ("{}" : @SourceMap Demo.runtime) |})).
Proof.
  apply (@unknown_file_is_not_checked DemoChecked.compiler Demo.runtime
           Part000Ts None Demo.noConfig "export const c = 3;" "/p/c.ts"
           DemoChecked.captured Part000.compilerOptions);
    try reflexivity.
  right. split; reflexivity.
Defined.

(** X14: a failed configuration resolution is not cached.  When the
    transform of a recognised file rejects because the configuration does not
    resolve (in the newest generation: with an Error-category diagnostic),
    the bindings are as before, and the next transform resolves the
    configuration anew; if it resolves then, that call builds the program
    with it. *)
Theorem configuration_failure_is_retried `{Compiler} `{Runtime}
    (g : Generation) (options : option PluginOptions) (w w' : World)
    (source id source' id' : string) (st : State)
    (diagnostics : list Diagnostic) (c : CompilerOptions) :
  isTsFile_of g id = true ->
  isTsFile_of g id' = true ->
  st_compilerOptions st = None ->
  st_program st = None ->
  getCompilerOptions_of g w options = Throw diagnostics ->
  g = IndexTs \/ existsb is_error diagnostics = true ->
  getCompilerOptions_of g w' options = Ok c ->
  (exists evs e, transform_of g options w source id st = (st, evs, Throw e))
  /\
  (let st2 := fst (run (transform_of g options)
                     [CallTransform w source id;
                      CallTransform w' source' id'] st) in
   st_compilerOptions st2 = Some c /\
   st_program st2
     = Some (createProgram (declaration_files w' ++ st_input st) (Some c))).
Proof.
  intros Hts Hts' Hco Hp Hfail Herr Hres.
  assert (Hfirst : exists evs e,
             transform_of g options w source id st = (st, evs, Throw e)).
  { destruct g; simpl in *.
    - destruct (index_config_failure w options source id st diagnostics
                  Hts Hco Hfail) as (d & rest & _ & ->). eauto.
    - destruct Herr as [? | Herr]; [discriminate |].
      destruct (first_error_split diagnostics Herr)
        as (pre & e & post & -> & Hpre & He).
      rewrite (part000_config_failure w options source id st _ Hts Hco Hfail).
      rewrite (report_first_error pre post e Hpre He). eauto. }
  split; [exact Hfirst |].
  destruct Hfirst as (evs & e & Hfirst).
  destruct (transform_builds g options w' source' id' st c Hts' Hp)
    as (st' & evs' & r' & Hsecond & Hco' & Hp'); [by right |].
  cbv zeta. simpl. rewrite Hfirst, Hsecond. simpl. auto.
Qed.

(** The theorem at work: the config file is unreadable for the first
    transform and gone for the second. *)
Lemma configuration_failure_is_retried_witness :
  exists evs e,
    @transform_of Demo.compiler Demo.runtime Part000Ts None Demo.unreadable
      "export const a = 1;" "/p/a.ts" DemoBuild.captured
    = (DemoBuild.captured, evs, Throw e).
Proof.
  apply (proj1 (@configuration_failure_is_retried Demo.compiler Demo.runtime
                  Part000Ts None Demo.unreadable Demo.noConfig
                  "export const a = 1;" "/p/a.ts" "export const a = 1;"
                  "/p/a.ts" DemoBuild.captured
                  [ {| messageText := MsgText "permission denied";
                       category := Error; file := None; start := None |} ]
                  Part000.compilerOptions
                  eq_refl eq_refl eq_refl eq_refl eq_refl
                  (or_intror eq_refl) eq_refl)).
Defined.

(** ** The reporter and its sink *)

Section SinkFacts.
Context `{Compiler} `{Runtime}.

Lemma warnings_hold_no_error (diagnostics : list Diagnostic) :
  List.filter is_sink_error (warnings_of diagnostics) = [] /\
  (forall m l, ~ In (EvError m l) (warnings_of diagnostics)) /\
  (length (warnings_of diagnostics) <= length diagnostics)%nat.
Proof.
  unfold warnings_of. induction diagnostics as [| d rest (IHf & IHin & IHlen)];
    [simpl; auto |].
  simpl. destruct (is_warning d); simpl.
  - split; [exact IHf |]. split; [| lia].
    intros m l [Heq | Hin]; [discriminate | by apply (IHin m l)].
  - split; [exact IHf |]. split; [exact IHin | lia].
Qed.

Lemma not_exists_forall_not (diagnostics : list Diagnostic) :
  existsb is_error diagnostics = false ->
  forallb (fun d => negb (is_error d)) diagnostics = true.
Proof.
  induction diagnostics as [| d rest IH]; [reflexivity |].
  simpl. destruct (is_error d); simpl; [discriminate | exact IH].
Qed.

End SinkFacts.

(** X15: the sink's error channel is called at most once per report, and it
    is the last call of the report: whatever the sequence of diagnostics and
    whether or not a sink is given, the reporter makes no more sink calls than
    there are diagnostics, at most one of them on the error channel; a
    reporter that returns has made none on the error channel; and an
    error-channel call is the last call and is what the reporter throws. *)
Theorem sink_error_is_last `{Compiler} `{Runtime}
    (diagnostics : list Diagnostic) (context : option PluginContext) :
  let evs := fst (Shared.printDiagnostics diagnostics context) in
  let r := snd (Shared.printDiagnostics diagnostics context) in
  (length (List.filter is_sink_error evs) <= 1)%nat /\
  (length evs <= length diagnostics)%nat /\
  (r = Ok tt -> List.filter is_sink_error evs = []) /\
  (forall m l,
      In (EvError m l) evs ->
      last evs = Some (EvError m l) /\ r = Throw (SinkError m l)).
Proof.
  cbv zeta. destruct context as [[] |].
  2:{ destruct diagnostics; simpl; repeat split; auto; try lia; contradiction. }
  destruct (warnings_hold_no_error diagnostics) as (Hf & Hin & Hlen).
  destruct (existsb is_error diagnostics) eqn:Herr.
  - destruct (first_error_split diagnostics Herr)
      as (pre & e & post & -> & Hpre & He).
    rewrite (report_first_error pre post e Hpre He). simpl.
    destruct (warnings_hold_no_error pre) as (Hfp & Hinp & Hlenp).
    rewrite List.filter_app, Hfp, !length_app. simpl.
    split; [lia |]. split; [lia |]. split; [discriminate |].
    intros m l [Hw | [Heq | []]]%in_app_or; [by apply Hinp in Hw |].
    injection Heq as <- <-. split; [apply last_snoc | reflexivity].
  - rewrite (report_no_error diagnostics (not_exists_forall_not _ Herr)).
    simpl. rewrite Hf. simpl. split; [lia |]. split; [exact Hlen |].
    split; [done |]. intros m l Hw. by apply Hin in Hw.
Qed.

(** The theorem at work: a warning, an error, and a diagnostic that is never
    looked at. *)
Lemma sink_error_is_last_witness :
  last (fst (@Shared.printDiagnostics Demo.compiler Demo.runtime
               [Samples.unusedLabel; Samples.firstProblem;
                Samples.secondProblem] (Some this)))
  = Some (EvError "Unknown compiler option 'strct'." None).
Proof.
  apply (proj2 (proj2 (proj2
           (@sink_error_is_last Demo.compiler Demo.runtime
              [Samples.unusedLabel; Samples.firstProblem;
               Samples.secondProblem] (Some this))))
           "Unknown compiler option 'strct'." None).
  right. left. reflexivity.
Defined.

(** ** The [options] hook across the generations *)

(** X16: the three [options] hooks capture the same entry points for an
    array and for a non-empty string.  They part on the edge cases: for the
    empty string the guarded hook keeps what was captured while [part_001]
    overwrites it; for a missing input the guarded hook does nothing while
    [part_001] throws a [TypeError]; and the oldest hook wraps whatever is not
    an array, so a mapping is stored whole instead of its values. *)
Theorem options_across_generations `{Compiler} (st : State) :
  (forall i,
      Shared.input_falsy i = false ->
      Part001.options i st = Ok (Index.options i st))
  /\
  (forall i,
      (exists l, i = InputArray l) \/ (exists s, i = InputString s) ->
      IndexOld.options i = List.map InputString (Shared.normalize_input i))
  /\
  (Index.options (InputString "") st = st /\
   Part001.options (InputString "") st
     = Ok {| st_input := [""]; st_compilerOptions := st_compilerOptions st;
             st_program := st_program st |})
  /\
  (Index.options InputUndefined st = st /\
   exists what, Part001.options InputUndefined st = Throw (TypeError what))
  /\
  (forall entries,
      IndexOld.options (InputObject entries) = [InputObject entries]).
Proof.
  split; [| split; [| split; [| split]]].
  - intros i Hi. unfold Index.options, Shared.options. rewrite Hi.
    destruct i; [discriminate | reflexivity ..].
  - intros i [[l ->] | [s ->]]; reflexivity.
  - split; reflexivity.
  - split; [reflexivity | eexists; reflexivity].
  - reflexivity.
Qed.

(** The theorem at work on a mapping of output names to paths. *)
Lemma options_across_generations_witness :
  @Part001.options Demo.compiler
    (InputObject [("main", "src/main.ts"); ("worker", "src/worker.ts")])
    initial
  = Ok (@Index.options Demo.compiler
          (InputObject [("main", "src/main.ts"); ("worker", "src/worker.ts")])
          initial).
Proof.
  apply (proj1 (@options_across_generations Demo.compiler initial)).
  reflexivity.
Defined.

(** ** Which files the hooks take for their own *)

Section NameFacts.

Lemma rev_app_append (a b acc : string) :
  String.rev_app (a +:+ b) acc = String.rev_app b (String.rev_app a acc).
Proof.
  revert acc. induction a as [| c a IH]; intros acc; simpl; [reflexivity |].
  apply IH.
Qed.

Lemma append_assoc (a b c : string) : (a +:+ b) +:+ c = a +:+ (b +:+ c).
Proof.
  induction a as [| x a IH]; [reflexivity |].
  change (String x ((a +:+ b) +:+ c) = String x (a +:+ (b +:+ c))).
  by f_equal.
Qed.

Lemma rev_app_acc (b acc : string) :
  String.rev_app b acc = String.rev_app b "" +:+ acc.
Proof.
  revert acc. induction b as [| c b IH]; intros acc; simpl; [reflexivity |].
  rewrite (IH (String c acc)), (IH (String c "")).
  by rewrite append_assoc.
Qed.

Lemma prefix_append (x y : string) : String.prefix x (x +:+ y) = true.
Proof.
  induction x as [| c x IH]; simpl; [by destruct y |].
  destruct (ascii_dec c c); [exact IH | done].
Qed.

Lemma endsWith_append (a b : string) : endsWith (a +:+ b) b = true.
Proof.
  unfold endsWith, String.rev. rewrite rev_app_append.
  rewrite (rev_app_acc b (String.rev_app a "")). apply prefix_append.
Qed.

Lemma extname_is_suffix (f : string) :
  last (list_ascii_of_string f) <> Some Path.CHAR_FORWARD_SLASH ->
  Path.extname f <> "" ->
  exists stem, f = stem +:+ Path.extname f.
Proof.
  intros Hlast Hext.
  destruct (extname_chars_suffix (list_ascii_of_string f)
              (list_ascii_of_string (Path.extname f)))
    as (stem & rest & Hp & _ & _); [done | | |].
  { unfold Path.extname. by rewrite list_ascii_of_string_of_list_ascii. }
  { intros Hnil. apply Hext.
    rewrite <- (string_of_list_ascii_of_string (Path.extname f)).
    by rewrite Hnil. }
  exists (string_of_list_ascii stem).
  rewrite <- (string_of_list_ascii_of_string f) at 1.
  rewrite Hp, string_of_list_ascii_app.
  by rewrite string_of_list_ascii_of_string.
Qed.

End NameFacts.

(** X17: the recognised files.  A file name that [src/index.ts] recognises is
    recognised by the newest generation as well; and unless it ends in a
    slash, it is a stem followed by '.ts' or '.tsx', so that a recognised
    '.ts' file also passes the [endsWith('.ts')] test of the oldest
    generation. *)
Theorem recognised_file_names (f : string) :
  Index.isTsFile f = true ->
  Part000.isTsFile f = true /\
  (last (list_ascii_of_string f) <> Some Path.CHAR_FORWARD_SLASH ->
   (exists stem, f = stem +:+ ".ts" /\ endsWith f ".ts" = true) \/
   (exists stem, f = stem +:+ ".tsx" /\ endsWith f ".tsx" = true)).
Proof.
  unfold Index.isTsFile, Index.extensions, Part000.isTsFile. simpl.
  rewrite orb_false_r. intros Hts.
  assert (Hext : Path.extname f = ".ts" \/ Path.extname f = ".tsx").
  { apply orb_prop in Hts as [Ht | Ht]; apply String.eqb_eq in Ht; auto. }
  split.
  - apply bool_decide_eq_true. unfold Part000.tsExtensions.
    destruct Hext as [-> | ->]; set_solver.
  - intros Hlast.
    destruct (extname_is_suffix f Hlast) as [stem Hstem].
    { destruct Hext as [-> | ->]; discriminate. }
    destruct Hext as [He | He]; rewrite He in Hstem; [left | right];
      exists stem; (split; [exact Hstem |]);
      rewrite Hstem; apply endsWith_append.
Qed.

(** The theorem at work on [/p/a.tsx]. *)
Lemma recognised_file_names_witness :
  Part000.isTsFile "/p/a.tsx" = true.
Proof.
  apply (proj1 (recognised_file_names "/p/a.tsx" eq_refl)).
Defined.

(** ** Overlapping calls: what the second construction is built over *)

(** X18: when two [transform] calls overlap before the program is set and the
    configuration resolves, every construction of the build is over the same
    file list -- the declaration files followed by the captured entry points
    -- and the same resolved configuration: the overlap repeats the
    construction, it does not change what is constructed. *)
Theorem overlapped_constructions_agree `{Compiler} `{Runtime}
    (g : Generation) (options : option PluginOptions) (w : World)
    (source1 id1 source2 id2 : string) (st : State) (c : CompilerOptions)
    (files : list string) (co : option CompilerOptions) :
  isTsFile_of g id1 = true ->
  isTsFile_of g id2 = true ->
  st_compilerOptions st = None ->
  st_program st = None ->
  getCompilerOptions_of g w options = Ok c ->
  In (EvCreateProgram files co)
     (snd (fst (overlapped g options w source1 id1 source2 id2 st))) ->
  files = declaration_files w ++ st_input st /\ co = Some c.
Proof.
  intros Hts1 Hts2 Hco Hp Hres.
  destruct (overlapped_trace g options w source1 id1 source2 id2 st c
              Hts1 Hts2 Hco Hp Hres)
    as (st' & evs1 & evs2 & t1 & t2 & -> & Hc1 & Hc2).
  simpl. intros [Heq | [Hin | [Heq | Hin]]%in_app_or].
  - by injection Heq as <- <-.
  - by apply no_creation_no_event in Hin.
  - by injection Heq as <- <-.
  - by apply no_creation_no_event in Hin.
Qed.

(** The theorem at work on the two entry points of the demo host. *)
Lemma overlapped_constructions_agree_witness :
  ["types/env.d.ts"; "/p/a.ts"; "/p/b.ts"]
    = declaration_files Demo.noConfig ++ ["/p/a.ts"; "/p/b.ts"]
  /\ Some Part000.compilerOptions = Some Part000.compilerOptions.
Proof.
  apply (@overlapped_constructions_agree Demo.compiler Demo.runtime
           Part000Ts None Demo.noConfig "export const a = 1;" "/p/a.ts"
           "export const b = 2;" "/p/b.ts"
           {| st_input := ["/p/a.ts"; "/p/b.ts"];
              st_compilerOptions := None; st_program := None |}
           Part000.compilerOptions
           ["types/env.d.ts"; "/p/a.ts"; "/p/b.ts"]
           (Some Part000.compilerOptions)).
  - reflexivity.
  - reflexivity.
  - reflexivity.
  - reflexivity.
  - reflexivity.
  - rewrite overlapped_demo_trace. left. reflexivity.
Defined.
